(** * Resume analyzer backend: a shallow embedding of [backend/app.py]

    The development follows the module top to bottom: Python strings and the
    character classes of [str.strip] and [re]; the backtracking matcher of
    [re.search] for the constructs the three patterns of [upload_resume] use;
    the completion client [_call_groq]; the text extractor
    [extract_resume_text]; the two request handlers.  Library calls whose
    outcome the program does not decide (the completion service, the PDF and
    DOCX readers, the file system) are oracles of a [world] that see the
    history of calls made so far. *)

From Stdlib Require Import ZArith NArith List Bool Lia String Ascii DecimalString.
From stdpp Require Import gmap.
Import ListNotations.

Local Open Scope N_scope.

(** ** Python strings

    A [str] is a sequence of Unicode code points. *)

Definition char := N.
Definition pystr := list char.

Definition ch (a : ascii) : char := N_of_ascii a.

(** An ASCII literal of the source as a [str]. *)
Definition py (s : string) : pystr := map ch (list_ascii_of_string s).

Arguments ch : simpl never.
Arguments py : simpl never.

(** The escape [\n] of the source's literals. *)
Definition nl : pystr := [10].

(** [str.isspace] on one code point, which is also the class [\s] of [re]
    for [str] patterns: both test [Py_UNICODE_ISSPACE]. *)
Definition is_space (c : char) : bool :=
  existsb (N.eqb c)
    [0x9; 0xA; 0xB; 0xC; 0xD; 0x1C; 0x1D; 0x1E; 0x1F; 0x20; 0x85; 0xA0;
     0x1680; 0x2000; 0x2001; 0x2002; 0x2003; 0x2004; 0x2005; 0x2006;
     0x2007; 0x2008; 0x2009; 0x200A; 0x2028; 0x2029; 0x202F; 0x205F; 0x3000].

(** First code point of every run of ten decimal digits (general category
    Nd, Unicode 14); the mathematical digits 1D7CE..1D7FF are five runs. *)
Definition decimal_zeros : list char :=
  [0x30; 0x660; 0x6F0; 0x7C0; 0x966; 0x9E6; 0xA66; 0xAE6; 0xB66; 0xBE6;
   0xC66; 0xCE6; 0xD66; 0xDE6; 0xE50; 0xED0; 0xF20; 0x1040; 0x1090; 0x17E0;
   0x1810; 0x1946; 0x19D0; 0x1A80; 0x1A90; 0x1B50; 0x1BB0; 0x1C40; 0x1C50;
   0xA620; 0xA8D0; 0xA900; 0xA9D0; 0xA9F0; 0xAA50; 0xABF0; 0xFF10; 0x104A0;
   0x10D30; 0x11066; 0x110F0; 0x11136; 0x111D0; 0x112F0; 0x11450; 0x114D0;
   0x11650; 0x116C0; 0x11730; 0x118E0; 0x11950; 0x11C50; 0x11D50; 0x11DA0;
   0x16A60; 0x16AC0; 0x16B50; 0x1D7CE; 0x1D7D8; 0x1D7E2; 0x1D7EC; 0x1D7F6;
   0x1E140; 0x1E2F0; 0x1E950; 0x1FBF0].

(** The class [\d] of [re] for [str] patterns: any decimal digit. *)
Definition is_digit (c : char) : bool :=
  existsb (fun z => (z <=? c) && (c <? z + 10)) decimal_zeros.

Fixpoint lstrip (s : pystr) : pystr :=
  match s with
  | c :: s' => if is_space c then lstrip s' else s
  | [] => []
  end.

Definition rstrip (s : pystr) : pystr := rev (lstrip (rev s)).

(** [s.strip()] *)
Definition strip (s : pystr) : pystr := rstrip (lstrip s).

Definition is_upper (c : char) : bool := (65 <=? c) && (c <=? 90).
Definition is_lower (c : char) : bool := (97 <=? c) && (c <=? 122).
Definition ascii_lower (c : char) : char := if is_upper c then c + 32 else c.

(** [s.lower()] as far as a comparison with an ASCII literal can see it:
    the letters A..Z are lowered; every other code point lowers to code
    points that are not ASCII letters of the literals compared here, and is
    kept. *)
Definition py_lower (s : pystr) : pystr := map ascii_lower s.

(** ** Regular expressions: the part of [re] the handlers use *)

Module Re.

Record flags := { IGNORECASE : bool; DOTALL : bool }.

(** One-character items of a pattern. *)
Inductive atom :=
| Lit (p : char)           (* a literal character *)
| Dot                      (* . *)
| Space                    (* \s *)
| Digit                    (* \d *)
| OneOf (ps : list char).  (* [...] of literal characters *)

(** Quantifiers are applied to atoms only, as in the three patterns. *)
Inductive regex :=
| Eps
| Atom (a : atom)
| Seq (r1 r2 : regex)
| Alt (r1 r2 : regex)                                          (* r1|r2 *)
| Rep (a : atom) (lo : nat) (hi : option nat) (greedy : bool)  (* a{lo,hi}, a{lo,hi}? *)
| Group (r : regex)                                            (* the capture group (...) *)
| Eos.                                                         (* $ without MULTILINE *)

(** A literal of an ASCII pattern against a subject character under
    IGNORECASE: the lowered subject is compared with the lowered literal,
    and the two letters whose case variants are not closed under simple
    lowering get theirs ([i]: U+0130, U+0131; [s]: U+017F; [k]: U+212A). *)
Definition ci_eq (p c : char) : bool :=
  let lo := ascii_lower p in
  (c =? lo)
  || (is_lower lo && (c =? lo - 32))
  || ((lo =? 105) && ((c =? 0x130) || (c =? 0x131)))
  || ((lo =? 115) && (c =? 0x17F))
  || ((lo =? 107) && (c =? 0x212A)).

Definition lit_match (fl : flags) (p c : char) : bool :=
  if IGNORECASE fl then ci_eq p c else c =? p.

Definition atom_match (fl : flags) (a : atom) (c : char) : bool :=
  match a with
  | Lit p => lit_match fl p c
  | Dot => DOTALL fl || negb (c =? 10)
  | Space => is_space c
  | Digit => is_digit c
  | OneOf ps => existsb (fun p => lit_match fl p c) ps
  end.

Definition below (hi : option nat) (n : nat) : bool :=
  match hi with
  | Some h => (n <? h)%nat
  | None => true
  end.

(** [$]: at the end of the string, or before a newline that ends it. *)
Definition at_end (s : pystr) : bool :=
  match s with
  | [] => true
  | [c] => c =? 10
  | _ => false
  end.

Section Matcher.
Context {R : Type}.
Variable fl : flags.

(** [a{lo,hi}] after [n] repetitions, with the rest of the pattern as
    the continuation [k]: a greedy quantifier tries one more repetition
    first and gives it back when the rest fails, a lazy one tries the
    rest first. *)
Fixpoint repeat_atom (a : atom) (lo : nat) (hi : option nat) (greedy : bool)
    (k : pystr -> option R) (n : nat) (s : pystr) : option R :=
  if greedy then
    match
      match s with
      | c :: s' =>
          if below hi n && atom_match fl a c
          then repeat_atom a lo hi greedy k (S n) s' else None
      | [] => None
      end
    with
    | Some r => Some r
    | None => if (lo <=? n)%nat then k s else None
    end
  else
    match (if (lo <=? n)%nat then k s else None) with
    | Some r => Some r
    | None =>
        match s with
        | c :: s' =>
            if below hi n && atom_match fl a c
            then repeat_atom a lo hi greedy k (S n) s' else None
        | [] => None
        end
    end.

(** The backtracking matcher: [rmatch r s g k] matches [r] at the front
    of [s] with group 1 currently [g], and hands the rest of the subject
    and the group to [k]; [None] makes the last choice point try its
    next alternative. *)
Fixpoint rmatch (r : regex) (s : pystr) (g : option pystr)
    (k : pystr -> option pystr -> option R) : option R :=
  match r with
  | Eps => k s g
  | Atom a =>
      match s with
      | c :: s' => if atom_match fl a c then k s' g else None
      | [] => None
      end
  | Seq r1 r2 => rmatch r1 s g (fun s' g' => rmatch r2 s' g' k)
  | Alt r1 r2 =>
      match rmatch r1 s g k with
      | Some x => Some x
      | None => rmatch r2 s g k
      end
  | Rep a lo hi greedy => repeat_atom a lo hi greedy (fun s' => k s' g) 0%nat s
  | Group r1 =>
      rmatch r1 s g
        (fun s' _ => k s' (Some (firstn (length s - length s')%nat s)))
  | Eos => if at_end s then k s g else None
  end.
End Matcher.

(** A match object, as far as the handlers read it: [m.group(1)], which
    is [None] when the group took no part in the match. *)
Record MatchObject := { group_1 : option pystr }.

(** [pattern.match(s)]: a match that starts at the front of [s]. *)
Definition match_at (fl : flags) (r : regex) (s : pystr) : option MatchObject :=
  rmatch fl r s None (fun _ g => Some {| group_1 := g |}).

(** [re.search(pattern, s, flags)]: the match at the leftmost position
    that has one. *)
Fixpoint search (fl : flags) (r : regex) (s : pystr) : option MatchObject :=
  match match_at fl r s with
  | Some m => Some m
  | None =>
      match s with
      | [] => None
      | _ :: s' => search fl r s'
      end
  end.

(** A run of literal characters. *)
Fixpoint lits (p : pystr) : regex :=
  match p with
  | [] => Eps
  | c :: p' => Seq (Atom (Lit c)) (lits p')
  end.

Definition star (a : atom) : regex := Rep a 0 None true.        (* a*  *)
Definition star_lazy (a : atom) : regex := Rep a 0 None false.  (* a*? *)
Definition opt (a : atom) : regex := Rep a 0 (Some 1%nat) true. (* a?  *)

End Re.

Import Re.

(** ** The three patterns of [upload_resume] *)

Definition I_ : flags := {| IGNORECASE := true; DOTALL := false |}.
Definition I_S : flags := {| IGNORECASE := true; DOTALL := true |}.

Definition example_marker : pystr := py "Example of rewritten section".

(** The pattern of line 98: "Rating\s*[:\-]?\s*(\d{1,2})" *)
Definition rating_re : regex :=
  Seq (lits (py "Rating"))
   (Seq (star Space)
     (Seq (opt (OneOf [ch ":"; ch "-"]))
       (Seq (star Space)
         (Group (Rep Digit 1 (Some 2%nat) true))))).

(** The pattern of line 99: "Suggestions\s*[:\-]?\s*(.*?)(?:Example of rewritten section|$)" *)
Definition suggestions_re : regex :=
  Seq (lits (py "Suggestions"))
   (Seq (star Space)
     (Seq (opt (OneOf [ch ":"; ch "-"]))
       (Seq (star Space)
         (Seq (Group (star_lazy Dot))
           (Alt (lits example_marker) Eos))))).

(** The pattern of line 100: the literal Example of rewritten section, a
    lazy run of any characters, a colon, a run of whitespace, and group 1: a
    greedy run of any characters. *)
Definition example_re : regex :=
  Seq (lits example_marker)
   (Seq (star_lazy Dot)
     (Seq (Atom (Lit (ch ":")))
       (Seq (star Space)
         (Group (star Dot))))).

(** The parsed fields; [None] is Python's [None]. *)
Record parsed := { rating : option pystr; suggestions : option pystr; example : option pystr }.

(** Lines 98 to 103 of [upload_resume]. *)
Definition parse_reply (ai_reply : pystr) : parsed :=
  let rating_match := search I_ rating_re ai_reply in
  let suggestions_match := search I_S suggestions_re ai_reply in
  let example_match := search I_S example_re ai_reply in
  {| rating :=
       match rating_match with Some m => group_1 m | None => None end;
     suggestions :=
       match suggestions_match with Some m => option_map strip (group_1 m) | None => None end;
     example :=
       match example_match with Some m => option_map strip (group_1 m) | None => None end |}.

(** ** Effects

    A call that can raise returns a [result]; [Raise e] carries [str(e)] of
    an [Exception].  The handlers touch the outside world through five
    library calls only; each is logged, newest first, and its outcome is the
    world's answer given the calls made before it. *)

Inductive result (A : Type) :=
| Ok (a : A)
| Raise (e : pystr).
Arguments Ok {A} a.
Arguments Raise {A} e.

Inductive event :=
| SaveFile (path : pystr)                                         (* file.save(path) *)
| ExtractPdf (path : pystr)                                       (* extract_text(path) *)
| OpenDocx (path : pystr)                                         (* Document(path) *)
| RemoveFile (path : pystr)                                       (* os.remove(path) *)
| CreateResponse (model input : pystr) (max_output_tokens : Z).   (* client.responses.create(...) *)

Definition history := list event.

Record world := {
  file_save : history -> pystr -> result unit;
  extract_text : history -> pystr -> result pystr;
  document_paragraphs : history -> pystr -> result (list pystr);
  os_remove : history -> pystr -> result unit;
  (* [resp.output_text] of the response, or the exception of the call *)
  responses_create : history -> pystr -> pystr -> Z -> result pystr
}.

Definition M (A : Type) : Type := history -> result A * history.

Definition ret {A} (a : A) : M A := fun h => (Ok a, h).
Definition raise {A} (e : pystr) : M A := fun h => (Raise e, h).

Definition bind {A B} (m : M A) (f : A -> M B) : M B :=
  fun h =>
    match m h with
    | (Ok a, h') => f a h'
    | (Raise e, h') => (Raise e, h')
    end.

(** One logged library call. *)
Definition call {A} (ev : event) (outcome : history -> result A) : M A :=
  fun h => (outcome h, ev :: h).

(** [try: m  except Exception as e: handler(e)] *)
Definition try_except {A} (m : M A) (handler : pystr -> M A) : M A :=
  fun h =>
    match m h with
    | (Ok a, h') => (Ok a, h')
    | (Raise e, h') => handler e h'
    end.

Notation "'let*' x ':=' m 'in' k" := (bind m (fun x => k))
  (at level 10, x name, m at level 100, k at level 200).

(** ** Module state (lines 23 to 31) *)

Record environ := {
  env_GROQ_MODEL : option pystr;
  env_GROQ_API_KEY : option pystr
}.

Definition GROQ_MODEL (env : environ) : pystr :=
  match env_GROQ_MODEL env with
  | Some m => m
  | None => py "llama-3.3-70b-versatile"
  end.

(** [client] is an [OpenAI] object when the key is set and not empty, else
    [None]; the flag says which. *)
Definition client (env : environ) : bool :=
  match env_GROQ_API_KEY env with
  | Some (_ :: _) => true
  | _ => false
  end.

(** ** The completion client (lines 33 to 55) *)

(** [str(n)] of an [int]. *)
Definition str_int (z : Z) : pystr := py (NilZero.string_of_int (Z.to_int z)).

(** [range(a, b)] *)
Definition py_range (a b : Z) : list Z :=
  map (fun i => (a + Z.of_nat i)%Z) (seq 0 (Z.to_nat (b - a))).

(** How the [for] loop of [_call_groq] is left: by its [return], or by
    running out of attempts or the [break], with [last_err]. *)
Inductive loop_exit :=
| Returned (text : pystr)
| Fell (last_err : option pystr).

Fixpoint attempt_loop (env : environ) (w : world) (prompt : pystr) (max_retries : Z)
    (attempts : list Z) (last_err : option pystr) (h : history) : loop_exit * history :=
  match attempts with
  | [] => (Fell last_err, h)
  | attempt :: rest =>
      let ev := CreateResponse (GROQ_MODEL env) prompt 2048 in
      match responses_create w h (GROQ_MODEL env) prompt 2048 with
      | Ok output_text => (Returned (strip output_text), ev :: h)
      | Raise e =>
          if (attempt =? max_retries)%Z then (Fell (Some e), ev :: h)
          else attempt_loop env w prompt max_retries rest (Some e) (ev :: h)
      end
  end.

(** [f"{last_err}"]: [str] of the exception, or of [None]. *)
Definition str_last_err (last_err : option pystr) : pystr :=
  match last_err with
  | Some e => e
  | None => py "None"
  end.

Definition _call_groq (env : environ) (w : world) (prompt : pystr) (max_retries : Z) : M pystr :=
  fun h =>
    if negb (client env) then
      (Raise (py "GROQ_API_KEY is not configured on the server."), h)
    else
      match attempt_loop env w prompt max_retries (py_range 1 (max_retries + 1)) None h with
      | (Returned text, h') => (Ok text, h')
      | (Fell last_err, h') =>
          (Raise (py "Groq AI request failed after " ++ str_int max_retries
                  ++ py " attempts: " ++ str_last_err last_err), h')
      end.

(** The default of the parameter [max_retries]. *)
Definition default_max_retries : Z := 3.

(** ** The text extractor (lines 57 to 65) *)

(** [os.path] of the platform: its separators and its [join]. *)
Record os_path := {
  sep : char;
  altsep : option char;
  path_join : pystr -> pystr -> pystr
}.

(** [p.rfind(c)]: the last index of [c] in [p], or -1. *)
Fixpoint rfind (c : char) (p : pystr) : Z :=
  match p with
  | [] => (-1)%Z
  | x :: p' =>
      let r := rfind c p' in
      if (0 <=? r)%Z then (r + 1)%Z
      else if x =? c then 0%Z else (-1)%Z
  end.

(** The [while] loop of [genericpath._splitext] that skips the leading dots
    of the file name: is there a character other than the dot in
    [p[filenameIndex:dotIndex]]? *)
Fixpoint has_name_before_dot (p : pystr) (dotIndex : Z) (steps : nat) (filenameIndex : Z) : bool :=
  match steps with
  | O => false
  | S steps' =>
      if (filenameIndex <? dotIndex)%Z then
        if negb (nth (Z.to_nat filenameIndex) p 0 =? ch ".") then true
        else has_name_before_dot p dotIndex steps' (filenameIndex + 1)%Z
      else false
  end.

(** [os.path.splitext(p)] *)
Definition splitext (osp : os_path) (p : pystr) : pystr * pystr :=
  let sepIndex :=
    match altsep osp with
    | Some a => Z.max (rfind (sep osp) p) (rfind a p)
    | None => rfind (sep osp) p
    end in
  let dotIndex := rfind (ch ".") p in
  if (sepIndex <? dotIndex)%Z
     && has_name_before_dot p dotIndex (Z.to_nat (dotIndex - sepIndex)) (sepIndex + 1)%Z
  then (firstn (Z.to_nat dotIndex) p, skipn (Z.to_nat dotIndex) p)
  else (p, []).

(** [sep.join(parts)] *)
Fixpoint str_join (sp : pystr) (parts : list pystr) : pystr :=
  match parts with
  | [] => []
  | [x] => x
  | x :: rest => x ++ sp ++ str_join sp rest
  end.

Definition extract_resume_text (osp : os_path) (w : world) (file_path : pystr) : M pystr :=
  let ext := py_lower (snd (splitext osp file_path)) in
  if decide (ext = py ".pdf") then
    call (ExtractPdf file_path) (fun h => extract_text w h file_path)
  else if decide (ext = py ".docx") then
    let* paragraphs := call (OpenDocx file_path) (fun h => document_paragraphs w h file_path) in
    ret (str_join nl paragraphs)
  else
    ret [].

(** [posixpath]: one separator, and [join] of two components. *)
Definition posix_join (a b : pystr) : pystr :=
  match b with
  | c :: _ => if c =? ch "/" then b
              else match rev a with
                   | [] => b
                   | l :: _ => if l =? ch "/" then a ++ b else a ++ [ch "/"] ++ b
                   end
  | [] => match rev a with
          | [] => b
          | l :: _ => if l =? ch "/" then a ++ b else a ++ [ch "/"] ++ b
          end
  end.

Definition posixpath : os_path :=
  {| sep := ch "/"; altsep := None; path_join := posix_join |}.

(** ** Requests and responses *)

(** A JSON value as far as the handlers look at it: [JOther] stands for
    the values they only test for truth and format (fractional numbers,
    arrays, objects). *)
Inductive json :=
| JNull
| JBool (b : bool)
| JInt (z : Z)
| JStr (s : pystr)
| JOther (truth : bool) (text : pystr).

(** [bool(v)] *)
Definition truthy (v : json) : bool :=
  match v with
  | JNull => false
  | JBool b => b
  | JInt z => negb (z =? 0)%Z
  | JStr s => match s with [] => false | _ => true end
  | JOther t _ => t
  end.

(** [f"{v}"] *)
Definition format_value (v : json) : pystr :=
  match v with
  | JNull => py "None"
  | JBool b => if b then py "True" else py "False"
  | JInt z => str_int z
  | JStr s => s
  | JOther _ text => text
  end.

(** A value that is a [str] or [None]. *)
Definition of_opt (o : option pystr) : json :=
  match o with
  | Some s => JStr s
  | None => JNull
  end.

(** What a handler returns: [jsonify(fields), status]. *)
Record response := { body : list (string * json); status : Z }.

Definition jsonify (fields : list (string * json)) (code : Z) : response :=
  {| body := fields; status := code |}.

(** An uploaded file of [request.files]; its content reaches the program
    through the extraction calls of the world only. *)
Record FileStorage := { filename : pystr }.

(** ** POST /upload (lines 67 to 108) *)

Definition upload_prompt (resume_text : pystr) : pystr :=
  py "You are an expert resume reviewer and career advisor. "
  ++ py "Carefully analyze the following resume and provide highly actionable, specific, and detailed suggestions for improvement. "
  ++ py "For each suggestion, include a concrete example or rewrite (e.g., 'Instead of X, do Y' or 'For example: ...'). "
  ++ py "After the suggestions, provide an example of a rewritten section (such as the summary or a project description) that would be considered a 10 out of 10, based on your feedback. "
  ++ py "Be strict about the format and do not skip any section. "
  ++ py "Consider clarity, structure, skills, achievements, relevance to modern job markets, and overall professionalism. "
  ++ py "Also, give an overall rating for the resume on a scale of 1 to 10, where 10 is outstanding and 1 is very poor. "
  ++ py "Respond in the following format (do not include anything else):" ++ nl
  ++ py "Rating: <number>" ++ nl ++ py "Suggestions:" ++ nl
  ++ py "<bullet points or text, each with an improved example or rewrite>" ++ nl
  ++ py "Example of rewritten section (10/10):" ++ nl ++ py "<your rewritten section>" ++ nl
  ++ nl ++ py "Resume:" ++ nl ++ resume_text.

(** Lines 98 to 106: the reply is parsed, and answered with success only
    when all three fields are truthy. *)
Definition analysis_response (ai_reply : pystr) : response :=
  let p := parse_reply ai_reply in
  if negb (truthy (of_opt (rating p)) && truthy (of_opt (suggestions p))
           && truthy (of_opt (example p)))
  then
    jsonify [("error"%string, JStr (py "AI could not provide a complete analysis. Please try again."));
             ("raw_ai_output"%string, JStr ai_reply)] 500
  else
    jsonify [("ai_rating"%string, of_opt (rating p));
             ("ai_suggestions"%string, of_opt (suggestions p));
             ("ai_example"%string, of_opt (example p));
             ("raw_ai_output"%string, JStr ai_reply)] 200.

(** Lines 76 to 80: the upload is saved, read and removed. *)
Definition upload_text (osp : os_path) (w : world) (file : FileStorage) : M pystr :=
  let temp_path := path_join osp (py "temp") (filename file) in
  let* _ := call (SaveFile temp_path) (fun h => file_save w h temp_path) in
  let* resume_text := extract_resume_text osp w temp_path in
  let* _ := call (RemoveFile temp_path) (fun h => os_remove w h temp_path) in
  ret resume_text.

(** The body of the [try] block. *)
Definition upload_body (env : environ) (osp : os_path) (w : world) (file : FileStorage) : M response :=
  let* resume_text := upload_text osp w file in
  if negb (truthy (JStr (strip resume_text))) then
    ret (jsonify [("error"%string, JStr (py "Could not extract text from resume."))] 400)
  else
    let* ai_reply := _call_groq env w (upload_prompt resume_text) default_max_retries in
    ret (analysis_response ai_reply).

Definition upload_resume (env : environ) (osp : os_path) (w : world)
    (request_files : gmap pystr FileStorage) (h : history) : response * history :=
  match request_files !! py "resume" with
  | None => (jsonify [("error"%string, JStr (py "No file uploaded"))] 400, h)
  | Some file =>
      match upload_body env osp w file h with
      | (Ok r, h') => (r, h')
      | (Raise e, h') => (jsonify [("error"%string, JStr e)] 500, h')
      end
  end.

(** ** POST /analyze (lines 110 to 125)

    The body of the request is valid JSON, and [request.get_json()] returns
    its value: an object, or any other JSON value.  Lines 112 and 113 are
    outside the [try] of line 121: on a value that is not an object
    [data.get] raises [AttributeError], the exception leaves the view
    function, and Flask answers with its own 500 page. *)

(** The value of [request.get_json()]. *)
Inductive json_body :=
| JsonObject (fields : gmap pystr json)
| JsonOther (v : json).  (* null, a boolean, a number, a string, an array *)

(** What becomes of a request: the view function returns a response, or an
    exception of the named class leaves it. *)
Inductive outcome :=
| Responds (r : response)
| Crashes (exception : string).

(** The status the client sees: Flask answers an exception that leaves the
    view function with 500. *)
Definition http_status (o : outcome) : Z :=
  match o with
  | Responds r => status r
  | Crashes _ => 500
  end.

Definition analyze_prompt (resume_text : json) : pystr :=
  py "You are an expert resume coach. Provide concise, actionable improvement suggestions (bullet list) and then a polished summary rewrite."
  ++ nl ++ py "Resume text:" ++ nl ++ format_value resume_text.

Definition analyze_resume (env : environ) (w : world) (data : json_body)
    (h : history) : outcome * history :=
  match data with
  | JsonOther _ => (Crashes "AttributeError", h)
  | JsonObject fields =>
      let resume_text :=
        match fields !! py "resume_text" with
        | Some v => v
        | None => JStr []
        end in
      if negb (truthy resume_text) then
        (Responds (jsonify [("error"%string, JStr (py "No resume text provided"))] 400), h)
      else
        match _call_groq env w (analyze_prompt resume_text) default_max_retries h with
        | (Ok ai_reply, h') =>
            (Responds (jsonify [("ai_suggestions"%string, JStr ai_reply);
                                ("model"%string, JStr (GROQ_MODEL env))] 200), h')
        | (Raise e, h') => (Responds (jsonify [("error"%string, JStr e)] 500), h')
        end
  end.

(** ** Vocabulary of the statements

    Definitions that belong to the statements below, not to the program. *)

(** [needle] occurs in [hay]. *)
Definition occurs (needle hay : pystr) : Prop :=
  exists before after, hay = before ++ needle ++ after.

(** The rest of [s] after the literal [p] at its front, when [s] starts
    with [p] (under the flags [fl]). *)
Fixpoint strip_prefix (fl : flags) (p s : pystr) : option pystr :=
  match p with
  | [] => Some s
  | c :: p' =>
      match s with
      | x :: s' => if lit_match fl c x then strip_prefix fl p' s' else None
      | [] => None
      end
  end.

(** The text after the leftmost occurrence of the literal [p] in [s]. *)
Fixpoint after_first (fl : flags) (p s : pystr) : option pystr :=
  match strip_prefix fl p s with
  | Some rest => Some rest
  | None =>
      match s with
      | [] => None
      | _ :: s' => after_first fl p s'
      end
  end.

(** The text after the first colon of [s]. *)
Fixpoint after_colon (s : pystr) : option pystr :=
  match s with
  | [] => None
  | c :: s' => if c =? ch ":" then Some s' else after_colon s'
  end.

(** The example field said directly: the trimmed text after the first
    colon that follows the leftmost marker. *)
Definition example_after_colon (reply : pystr) : option pystr :=
  match after_first I_S example_marker reply with
  | Some post => option_map strip (after_colon post)
  | None => None
  end.

(** The pattern [r] matches at none of the first [n] positions of [s]. *)
Fixpoint no_match_before (fl : flags) (r : regex) (n : nat) (s : pystr) : bool :=
  match n with
  | O => true
  | S n' =>
      match match_at fl r s with
      | Some _ => false
      | None =>
          match s with
          | [] => true
          | _ :: s' => no_match_before fl r n' s'
          end
      end
  end.

(** The part of a path after its last dot, when it has a dot. *)
Fixpoint after_last_dot (p : pystr) : option pystr :=
  match p with
  | [] => None
  | c :: p' =>
      match after_last_dot p' with
      | Some e => Some e
      | None => if c =? ch "." then Some p' else None
      end
  end.

(** The text before the leftmost occurrence of the literal [p] in [s], or
    all of [s] when it has none. *)
Fixpoint before_first (fl : flags) (p s : pystr) : pystr :=
  match strip_prefix fl p s with
  | Some _ => []
  | None =>
      match s with
      | [] => []
      | c :: s' => c :: before_first fl p s'
      end
  end.

(** What the suggestions pattern passes over after the word: whitespace,
    one colon or dash, whitespace. *)
Definition skip_separator (s : pystr) : pystr :=
  match lstrip s with
  | c :: s' => if (c =? ch ":") || (c =? ch "-") then lstrip s' else c :: s'
  | [] => []
  end.

(** The text the lazy group of the suggestions pattern takes from [s]: up
    to the example marker, or to the end of [s] or the newline that ends it. *)
Fixpoint lazy_group (s : pystr) : pystr :=
  match strip_prefix I_S example_marker s with
  | Some _ => []
  | None =>
      if at_end s then []
      else match s with
           | [] => []
           | c :: s' => c :: lazy_group s'
           end
  end.

(** One or two digits at the front of [t]. *)
Definition take_digits (t : pystr) : option pystr :=
  match t with
  | d1 :: t' =>
      if is_digit d1 then
        match t' with
        | d2 :: _ => if is_digit d2 then Some [d1; d2] else Some [d1]
        | [] => Some [d1]
        end
      else None
  | [] => None
  end.

(** The number the rating pattern finds when it is tried at the front of
    [s]: the word, the separator, and one or two digits. *)
Definition rating_here (s : pystr) : option pystr :=
  match strip_prefix I_ (py "Rating") s with
  | Some post => take_digits (skip_separator post)
  | None => None
  end.

(** The incomplete-analysis answer of /upload. *)
Definition incomplete_analysis (ai_reply : pystr) : response :=
  jsonify [("error"%string, JStr (py "AI could not provide a complete analysis. Please try again."));
           ("raw_ai_output"%string, JStr ai_reply)] 500.

(** The first suffix of [s], from the left, that [k] accepts. *)
Fixpoint first_suffix {R : Type} (k : pystr -> option R) (s : pystr) : option R :=
  match k s with
  | Some r => Some r
  | None =>
      match s with
      | [] => None
      | _ :: s' => first_suffix k s'
      end
  end.

(** ** Worlds of the examples *)

(** Number of completion calls in a history. *)
Fixpoint calls_made (h : history) : nat :=
  match h with
  | [] => O
  | CreateResponse _ _ _ :: h' => S (calls_made h')
  | _ :: h' => calls_made h'
  end.

(** A world whose file system and readers work, with the upload's text
    [text] and a completion service that answers by [output]. *)
Definition world_with (text : pystr) (output : history -> result pystr) : world :=
  {| file_save := fun _ _ => Ok tt;
     extract_text := fun _ _ => Ok text;
     document_paragraphs := fun _ _ => Ok [text];
     os_remove := fun _ _ => Ok tt;
     responses_create := fun h _ _ _ => output h |}.

(** The completion service is down. *)
Definition always_failing : history -> result pystr :=
  fun _ => Raise (py "connection reset").

(** The completion service fails twice, then answers. *)
Definition fails_twice (answer : pystr) : history -> result pystr :=
  fun h => if (calls_made h <? 2)%nat then Raise (py "timeout") else Ok answer.

Definition configured : environ :=
  {| env_GROQ_MODEL := None; env_GROQ_API_KEY := Some (py "gsk_test") |}.

(** The history of an upload of a PDF that was saved, read and removed. *)
Definition saved_and_read (path : pystr) : history :=
  [RemoveFile path; ExtractPdf path; SaveFile path].

Definition one_upload (name : pystr) : gmap pystr FileStorage :=
  {[ py "resume" := {| filename := name |} ]}.

(** The reply of the spec's example, its three parts on lines of their own. *)
Definition well_formed_reply : pystr :=
  py "Rating: 8" ++ nl ++ py "Suggestions:" ++ nl ++ py "- improve X" ++ nl
  ++ py "Example of rewritten section (10/10):" ++ nl ++ py "Rewritten text".

(** The same reply with no colon after the example marker. *)
Definition reply_without_colon : pystr :=
  py "Rating: 8" ++ nl ++ py "Suggestions:" ++ nl ++ py "- improve X" ++ nl
  ++ py "Example of rewritten section" ++ nl ++ py "Rewritten text".

(** A reply with no example section. *)
Definition reply_without_example : pystr :=
  py "Rating: 8" ++ nl ++ py "Suggestions:" ++ nl ++ py "- improve X".

(** A reply that mentions a rating before its rating line. *)
Definition reply_two_ratings : pystr :=
  py "My rating - 7 of 10." ++ nl ++ py "Rating: 99" ++ nl ++ py "Suggestions: a" ++ nl
  ++ py "Example of rewritten section: b".

(** A reply with text before its rating line, and what follows the line. *)
Definition reply_preamble : pystr := py "Overall review." ++ nl.
Definition reply_sections : pystr :=
  nl ++ py "Suggestions: use verbs" ++ nl ++ py "Example of rewritten section: Led a team".

(** A reply that uses the word suggestions before its empty suggestions
    section. *)
Definition reply_two_suggestions : pystr :=
  (py "Rating: 7" ++ nl ++ py "Here are my suggestions - see below." ++ nl)
  ++ py "Suggestions" ++ nl ++ py "Example of rewritten section" ++ py ": Better text".

(** [c] is a separator of the platform's paths. *)
Definition is_sep (osp : os_path) (c : char) : bool :=
  (c =? sep osp)
  || match altsep osp with
     | Some a => c =? a
     | None => false
     end.

Definition is_completion (e : event) : bool :=
  match e with
  | CreateResponse _ _ _ => true
  | _ => false
  end.

(** The completion service answers at the attempt numbered [i] from 0, and
    raises before. *)
Definition answers_at (i : nat) (answer : pystr) : history -> result pystr :=
  fun h => if (calls_made h <? i)%nat then Raise (py "rate limited") else Ok answer.

Definition unconfigured : environ :=
  {| env_GROQ_MODEL := None; env_GROQ_API_KEY := Some [] |}.

(** The index of the last separator of [p], or -1, as [splitext] takes it. *)
Definition sep_index (osp : os_path) (p : pystr) : Z :=
  match altsep osp with
  | Some a => Z.max (rfind (sep osp) p) (rfind a p)
  | None => rfind (sep osp) p
  end.

(** [s] holds no separator. *)
Definition no_sep (osp : os_path) (s : pystr) : bool :=
  forallb (fun c => negb (is_sep osp c)) s.

(** [stem] and [ext] are a file name and its extension: no separator in
    either or in the dot between them, and a character other than the dot in
    the name. *)
Definition name_and_ext (osp : os_path) (stem ext : pystr) : bool :=
  no_sep osp (stem ++ ch "." :: ext)
  && existsb (fun c => negb (c =? ch ".")) stem.

(** [dir] is empty or ends with a separator: what follows it is the last
    component of the path. *)
Definition ends_component (osp : os_path) (dir : pystr) : bool :=
  match rev dir with
  | [] => true
  | c :: _ => is_sep osp c
  end.

(** A world whose PDF reader raises on every file. *)
Definition unreadable_pdf : world :=
  {| file_save := fun _ _ => Ok tt;
     extract_text := fun _ _ => Raise (py "No /Root object! - Is this really a PDF?");
     document_paragraphs := fun _ _ => Ok [];
     os_remove := fun _ _ => Ok tt;
     responses_create := fun _ _ _ _ => Ok (py "unused") |}.

(** The answers of the handlers, by kind. *)
Definition error_answer (code : Z) (r : response) : Prop :=
  exists e, r = jsonify [("error"%string, JStr e)] code.

(** A success of /upload: the four fields, with a rating of one or two
    digits, and suggestions, example and reply that are trimmed, the first
    two not empty. *)
Definition upload_success (r : response) : Prop :=
  exists rt sg ex raw,
    r = jsonify [("ai_rating"%string, JStr rt); ("ai_suggestions"%string, JStr sg);
                 ("ai_example"%string, JStr ex); ("raw_ai_output"%string, JStr raw)] 200
    /\ ((length rt = 1)%nat \/ (length rt = 2)%nat) /\ forallb is_digit rt = true
    /\ sg <> [] /\ strip sg = sg
    /\ ex <> [] /\ strip ex = ex
    /\ strip raw = raw.


(** What /upload does to the temporary file [p], newest call first: it is
    saved; then read by one of the readers, or not read; then removed, or
    not. *)
Definition file_steps (p : pystr) (fs : history) : Prop :=
  fs = [SaveFile p]
  \/ fs = [ExtractPdf p; SaveFile p] \/ fs = [OpenDocx p; SaveFile p]
  \/ fs = [RemoveFile p; SaveFile p]
  \/ fs = [RemoveFile p; ExtractPdf p; SaveFile p]
  \/ fs = [RemoveFile p; OpenDocx p; SaveFile p].

(** The temporary file was saved, read by a reader and removed. *)
Definition read_and_removed (p : pystr) (fs : history) : Prop :=
  fs = [RemoveFile p; ExtractPdf p; SaveFile p]
  \/ fs = [RemoveFile p; OpenDocx p; SaveFile p].

(** A reply in the format the prompt of /upload asks for (line 93): the
    rating, the suggestions and the rewritten section under their headings. *)
Definition formatted_reply (number suggestions_text section : pystr) : pystr :=
  py "Rating: " ++ number ++ nl
  ++ py "Suggestions:" ++ nl ++ suggestions_text ++ nl
  ++ py "Example of rewritten section (10/10):" ++ nl ++ section.

(** * Properties *)

(** ** The parser on sample replies

    The values are those of CPython 3.11 on the same strings. *)

Example rating_takes_two_digits_across_lines :
  rating (parse_reply (py "rating" ++ nl ++ nl ++ py ":" ++ nl ++ nl ++ py "12345"))
  = Some (py "12").
Proof. vm_compute. reflexivity. Qed.

Example rating_after_colon_and_dash_is_none :
  rating (parse_reply (py "Rating:- 5")) = None.
Proof. vm_compute. reflexivity. Qed.

(** U+0130 is a case variant of i, and U+0663 is a decimal digit. *)
Example rating_folds_case_beyond_ascii :
  rating (parse_reply ([82; 65; 84; 0x130; 78; 71; 32; 0x663])) = Some [0x663].
Proof. vm_compute. reflexivity. Qed.

Example suggestions_run_to_the_end :
  suggestions (parse_reply (py "Suggestions - abc" ++ nl)) = Some (py "abc").
Proof. vm_compute. reflexivity. Qed.

Example example_after_a_later_colon :
  example (parse_reply (py "Example of rewritten section (10/10) - see: text "))
  = Some (py "text").
Proof. vm_compute. reflexivity. Qed.

(** ** Trimming *)

Lemma lstrip_idem s : lstrip (lstrip s) = lstrip s.
Proof.
  induction s as [|c s IH]; simpl; [reflexivity|].
  destruct (is_space c) eqn:E; [exact IH|].
  simpl. rewrite E. reflexivity.
Qed.

Lemma strip_lstrip s : strip (lstrip s) = strip s.
Proof. unfold strip. rewrite lstrip_idem. reflexivity. Qed.

Lemma lstrip_spaces_app ws s :
  forallb is_space ws = true -> lstrip (ws ++ s) = lstrip s.
Proof.
  induction ws as [|c ws IH]; simpl; [reflexivity|].
  intros H. apply andb_true_iff in H as [Hc Hws]. rewrite Hc. auto.
Qed.

Lemma lstrip_nonspace c s : is_space c = false -> lstrip (c :: s) = c :: s.
Proof. intros H. simpl. rewrite H. reflexivity. Qed.

(** ** The matcher on the shapes the three patterns are made of *)

Section MatcherFacts.
Context {R : Type}.
Variable fl : flags.

Lemma rmatch_seq r1 r2 s g (k : pystr -> option pystr -> option R) :
  rmatch fl (Seq r1 r2) s g k = rmatch fl r1 s g (fun s' g' => rmatch fl r2 s' g' k).
Proof. reflexivity. Qed.

Lemma rmatch_rep a lo hi gr s g (k : pystr -> option pystr -> option R) :
  rmatch fl (Rep a lo hi gr) s g k = repeat_atom fl a lo hi gr (fun s' => k s' g) 0 s.
Proof. reflexivity. Qed.

Lemma rmatch_atom_seq a r c s g (k : pystr -> option pystr -> option R) :
  rmatch fl (Seq (Atom a) r) (c :: s) g k =
  if atom_match fl a c then rmatch fl r s g k else None.
Proof. reflexivity. Qed.

Lemma rmatch_lits p s g (k : pystr -> option pystr -> option R) :
  rmatch fl (lits p) s g k =
  match strip_prefix fl p s with
  | Some rest => k rest g
  | None => None
  end.
Proof.
  revert s. induction p as [|c p IH]; intros s; simpl; [reflexivity|].
  destruct s as [|x s]; [reflexivity|].
  destruct (lit_match fl c x); [apply IH | reflexivity].
Qed.

(** [.*?] under DOTALL hands the rest of the pattern every suffix in
    turn, shortest consumption first. *)
Lemma lazy_dot_star (k : pystr -> option R) n s :
  DOTALL fl = true ->
  repeat_atom fl Dot 0 None false k n s = first_suffix k s.
Proof.
  intros HD. revert n. induction s as [|c s IH]; intros n; simpl.
  - destruct (k []); reflexivity.
  - destruct (k (c :: s)); [reflexivity|].
    rewrite HD. simpl. apply IH.
Qed.

(** [.*] under DOTALL runs to the end when the rest accepts there. *)
Lemma greedy_dot_all (k : pystr -> option R) n s r :
  DOTALL fl = true -> k [] = Some r ->
  repeat_atom fl Dot 0 None true k n s = Some r.
Proof.
  intros HD Hk. revert n. induction s as [|c s IH]; intros n; simpl.
  - exact Hk.
  - rewrite HD. simpl. rewrite IH. reflexivity.
Qed.

(** [\s*] takes the whole run of whitespace when the rest accepts after it. *)
Lemma greedy_space_max (k : pystr -> option R) n s r :
  k (lstrip s) = Some r ->
  repeat_atom fl Space 0 None true k n s = Some r.
Proof.
  revert n. induction s as [|c s IH]; intros n; simpl; intros Hk.
  - exact Hk.
  - destruct (is_space c) eqn:E.
    + rewrite (IH _ Hk). reflexivity.
    + exact Hk.
Qed.

(** [a?] takes the character when it can and the rest accepts then. *)
Lemma opt_unfold a (k : pystr -> option R) s :
  repeat_atom fl a 0 (Some 1%nat) true k 0 s =
  match
    match s with
    | c :: s' => if atom_match fl a c then k s' else None
    | [] => None
    end
  with
  | Some r => Some r
  | None => k s
  end.
Proof.
  destruct s as [|c s]; simpl; [reflexivity|].
  destruct (atom_match fl a c); [|reflexivity].
  destruct s; simpl; reflexivity.
Qed.
End MatcherFacts.

Lemma first_suffix_ext {R : Type} (k k' : pystr -> option R) s :
  (forall t, k t = k' t) -> first_suffix k s = first_suffix k' s.
Proof.
  intros H. induction s as [|c s IH]; cbn [first_suffix]; rewrite H; [reflexivity|].
  rewrite IH. reflexivity.
Qed.

Lemma search_first_suffix fl r s : search fl r s = first_suffix (match_at fl r) s.
Proof. induction s as [|c s IH]; simpl; [reflexivity|]. rewrite IH. reflexivity. Qed.

(** A pattern that starts with a literal is tried where the literal is. *)
Lemma search_after_first fl p r s rest m :
  after_first fl p s = Some rest ->
  rmatch fl r rest None (fun _ g => Some {| group_1 := g |}) = Some m ->
  search fl (Seq (lits p) r) s = Some m.
Proof.
  intros Ha Hm. induction s as [|c s IH]; simpl in *.
  - unfold match_at. simpl. rewrite rmatch_lits.
    destruct (strip_prefix fl p []) eqn:E; [|discriminate].
    injection Ha as ->. rewrite Hm. reflexivity.
  - unfold match_at. simpl. rewrite rmatch_lits.
    destruct (strip_prefix fl p (c :: s)) eqn:E.
    + injection Ha as ->. rewrite Hm. reflexivity.
    + apply IH. exact Ha.
Qed.

Lemma search_skip fl r pre s :
  no_match_before fl r (length pre) (pre ++ s) = true ->
  search fl r (pre ++ s) = search fl r s.
Proof.
  induction pre as [|c pre IH]; simpl; [reflexivity|].
  destruct (match_at fl r (c :: pre ++ s)); [discriminate|]. exact IH.
Qed.

(** ** The example pattern *)

Lemma colon_match c : atom_match I_S (Lit (ch ":")) c = (c =? ch ":").
Proof.
  unfold atom_match, lit_match, ci_eq, ch. cbn.
  rewrite !orb_false_r. reflexivity.
Qed.

(** After the colon the pattern always matches: the whitespace is skipped
    and the group takes the rest of the reply. *)
Lemma example_tail t :
  rmatch I_S (Seq (star Space) (Group (star Dot))) t None
    (fun _ g => Some {| group_1 := g |})
  = Some {| group_1 := Some (lstrip t) |}.
Proof.
  cbn [rmatch star]. apply greedy_space_max.
  apply greedy_dot_all; [reflexivity|].
  simpl. rewrite Nat.sub_0_r, firstn_all. reflexivity.
Qed.

Lemma example_scan rest :
  first_suffix
    (fun t => rmatch I_S (Seq (Atom (Lit (ch ":"))) (Seq (star Space) (Group (star Dot))))
                t None (fun _ g => Some {| group_1 := g |})) rest
  = option_map (fun t => {| group_1 := Some (lstrip t) |}) (after_colon rest).
Proof.
  induction rest as [|c rest IH]; [reflexivity|].
  cbn [first_suffix after_colon]. rewrite rmatch_atom_seq, colon_match.
  destruct (c =? ch ":") eqn:E.
  - rewrite example_tail. reflexivity.
  - exact IH.
Qed.

Lemma match_at_example s :
  match_at I_S example_re s =
  match strip_prefix I_S example_marker s with
  | Some rest => option_map (fun t => {| group_1 := Some (lstrip t) |}) (after_colon rest)
  | None => None
  end.
Proof.
  unfold match_at, example_re. rewrite rmatch_seq, rmatch_lits.
  destruct (strip_prefix I_S example_marker s) as [rest|]; [|reflexivity].
  rewrite rmatch_seq. unfold star_lazy at 1. rewrite rmatch_rep.
  rewrite lazy_dot_star by reflexivity.
  apply example_scan.
Qed.

Lemma strip_prefix_split fl p s rest :
  strip_prefix fl p s = Some rest ->
  exists m, s = m ++ rest /\ Forall2 (fun pc x => lit_match fl pc x = true) p m.
Proof.
  revert s. induction p as [|pc p IH]; intros s H; simpl in H.
  - inversion H; subst. exists []. split; [reflexivity | constructor].
  - destruct s as [|x s]; [discriminate|].
    destruct (lit_match fl pc x) eqn:E; [|discriminate].
    destruct (IH _ H) as (m & -> & Hm).
    exists (x :: m). split; [reflexivity | constructor; assumption].
Qed.

Lemma after_colon_app m rest :
  after_colon m = None -> after_colon (m ++ rest) = after_colon rest.
Proof.
  induction m as [|c m IH]; cbn [after_colon app]; [reflexivity|].
  destruct (c =? ch ":"); [intros H; discriminate H | exact IH].
Qed.

Lemma after_colon_app_none m rest :
  after_colon (m ++ rest) = None -> after_colon rest = None.
Proof.
  induction m as [|c m IH]; cbn [after_colon app]; [auto|].
  destruct (c =? ch ":"); [intros H; discriminate H | exact IH].
Qed.

(** No character of the marker, in any case variant, is a colon. *)
Lemma marker_has_no_colon m :
  Forall2 (fun pc x => lit_match I_S pc x = true) example_marker m ->
  after_colon m = None.
Proof.
  assert (Hp : forallb (fun pc => negb (lit_match I_S pc (ch ":"))) example_marker = true)
    by reflexivity.
  revert Hp. generalize example_marker as p. intros p Hp H.
  induction H as [|pc x p m Hx _ IH]; [reflexivity|].
  cbn [forallb] in Hp. apply andb_true_iff in Hp as [Hpc Hp].
  cbn [after_colon]. destruct (x =? ch ":") eqn:E.
  - apply N.eqb_eq in E. subst x. rewrite Hx in Hpc. discriminate.
  - auto.
Qed.

Lemma match_at_example_no_colon s :
  after_colon s = None -> match_at I_S example_re s = None.
Proof.
  intros H. rewrite match_at_example.
  destruct (strip_prefix I_S example_marker s) as [rest|] eqn:E; [|reflexivity].
  destruct (strip_prefix_split _ _ _ _ E) as (m & -> & _).
  rewrite (after_colon_app_none _ _ H). reflexivity.
Qed.

Lemma search_example_no_colon s :
  after_colon s = None -> search I_S example_re s = None.
Proof.
  induction s as [|c s IH]; intros H.
  - cbn [search]. rewrite match_at_example_no_colon; reflexivity.
  - cbn [search]. rewrite (match_at_example_no_colon _ H).
    apply IH. cbn [after_colon] in H. destruct (c =? ch ":"); [discriminate H | exact H].
Qed.

Lemma search_example reply :
  search I_S example_re reply =
  match after_first I_S example_marker reply with
  | Some post => option_map (fun t => {| group_1 := Some (lstrip t) |}) (after_colon post)
  | None => None
  end.
Proof.
  induction reply as [|c s IH].
  - cbn [search after_first]. rewrite match_at_example.
    destruct (strip_prefix I_S example_marker []) as [rest|]; [|reflexivity].
    destruct (after_colon rest); reflexivity.
  - cbn [search after_first]. rewrite match_at_example.
    destruct (strip_prefix I_S example_marker (c :: s)) as [rest|] eqn:E; [|exact IH].
    destruct (after_colon rest) as [t|] eqn:Ec; [reflexivity|].
    destruct (strip_prefix_split _ _ _ _ E) as (m & Hs & Hm).
    assert (Hn : after_colon (c :: s) = None).
    { rewrite Hs, (after_colon_app _ _ (marker_has_no_colon _ Hm)). exact Ec. }
    cbn [after_colon] in Hn. destruct (c =? ch ":"); [discriminate Hn|].
    apply search_example_no_colon. exact Hn.
Qed.

(** ** Paths *)

Lemma rfind_spec c p :
  (rfind c p = (-1)%Z) \/ (0 <= rfind c p)%Z.
Proof.
  induction p as [|x p IH]; simpl; [left; reflexivity|].
  destruct (0 <=? rfind c p)%Z eqn:E.
  - right. apply Z.leb_le in E. lia.
  - destruct (x =? c); [right; lia | left; reflexivity].
Qed.

Lemma rfind_dot p :
  (0 <= rfind (ch ".") p)%Z ->
  exists e, after_last_dot p = Some e
            /\ skipn (Z.to_nat (rfind (ch ".") p)) p = ch "." :: e.
Proof.
  induction p as [|x p IH]; simpl; [lia|].
  destruct (0 <=? rfind (ch ".") p)%Z eqn:E.
  - apply Z.leb_le in E. intros _. destruct (IH E) as (e & He & Hs).
    exists e. rewrite He. split; [reflexivity|].
    rewrite Z2Nat.inj_add by lia. rewrite Nat.add_comm. simpl. exact Hs.
  - apply Z.leb_gt in E. destruct (rfind_spec (ch ".") p) as [Hr|Hr]; [|lia].
    destruct (x =? ch ".") eqn:Ex; [|lia]. intros _.
    apply N.eqb_eq in Ex. subst x.
    assert (Hn : after_last_dot p = None).
    { clear -Hr. induction p as [|y p IH]; [reflexivity|]. simpl in *.
      destruct (0 <=? rfind (ch ".") p)%Z eqn:E.
      - apply Z.leb_le in E. lia.
      - destruct (y =? ch ".") eqn:Ey; [discriminate|].
        rewrite IH; [reflexivity|].
        apply Z.leb_gt in E. destruct (rfind_spec (ch ".") p); [assumption | lia]. }
    exists p. rewrite Hn. split; reflexivity.
Qed.

(** The extension [splitext] returns is empty, or the last dot of the path
    with what follows it. *)
Lemma splitext_ext osp p :
  snd (splitext osp p) = [] \/
  exists e, after_last_dot p = Some e /\ snd (splitext osp p) = ch "." :: e.
Proof.
  unfold splitext.
  match goal with |- context [if ?b then _ else _] => destruct b eqn:E end;
    [|left; reflexivity].
  right. apply andb_true_iff in E as [E _]. apply Z.ltb_lt in E.
  destruct (rfind_spec (ch ".") p) as [Hr|Hr].
  - exfalso. rewrite Hr in E.
    destruct (altsep osp);
      [ pose proof (rfind_spec (sep osp) p); pose proof (rfind_spec c p); lia
      | pose proof (rfind_spec (sep osp) p); lia ].
  - destruct (rfind_dot p Hr) as (e & He & Hs). exists e. split; [exact He|].
    simpl. exact Hs.
Qed.

(** ** The reply parser *)

Lemma example_field reply :
  example (parse_reply reply) = example_after_colon reply.
Proof.
  unfold parse_reply, example_after_colon. cbn [example].
  rewrite search_example.
  destruct (after_first I_S example_marker reply) as [post|]; [|reflexivity].
  destruct (after_colon post) as [t|]; [|reflexivity].
  cbn [option_map group_1]. rewrite strip_lstrip. reflexivity.
Qed.

(** C2: the parser on the well-formed reply of the spec yields rating 8,
    suggestions that begin with (and are) the bullet, and the example text. *)
Theorem parse_well_formed_reply :
  rating (parse_reply well_formed_reply) = Some (py "8")
  /\ (exists tail, suggestions (parse_reply well_formed_reply) = Some (py "- improve X" ++ tail))
  /\ suggestions (parse_reply well_formed_reply) = Some (py "- improve X")
  /\ example (parse_reply well_formed_reply) = Some (py "Rewritten text").
Proof.
  repeat split; try (vm_compute; reflexivity).
  exists []. vm_compute. reflexivity.
Qed.

(** C3, as the spec has it, fails on the reply whose marker is followed by
    a newline and no colon: the marker occurs and the example is [None]. *)
Lemma example_without_colon_is_none :
  occurs example_marker reply_without_colon
  /\ example (parse_reply reply_without_colon) = None
  /\ fst (upload_resume configured posixpath
            (world_with (py "Jane Doe") (fun _ => Ok reply_without_colon))
            (one_upload (py "cv.pdf")) [])
     = incomplete_analysis reply_without_colon.
Proof.
  split; [|split].
  - exists (py "Rating: 8" ++ nl ++ py "Suggestions:" ++ nl ++ py "- improve X" ++ nl),
      (nl ++ py "Rewritten text").
    vm_compute. reflexivity.
  - vm_compute. reflexivity.
  - vm_compute. reflexivity.
Qed.

(** C3, amended: the example field is the trimmed text after the first
    colon that follows the leftmost case-insensitive occurrence of the
    marker; it is [None] when the reply has no marker or no colon after it. *)
Theorem example_is_text_after_colon reply :
  example (parse_reply reply) =
  match after_first I_S example_marker reply with
  | Some post =>
      match after_colon post with
      | Some text => Some (strip text)
      | None => None
      end
  | None => None
  end.
Proof.
  rewrite example_field. unfold example_after_colon.
  destruct (after_first I_S example_marker reply) as [post|]; [|reflexivity].
  destruct (after_colon post); reflexivity.
Qed.

(** ** The text extractor *)

(** C6, as stated, fails on a path whose extension is written in capitals:
    the part after the last dot of cv.PDF is PDF, which is neither pdf nor
    docx, and the extractor, which lowers the extension, hands the file to
    the PDF reader and returns its text. *)
Lemma capital_extension_is_read :
  after_last_dot (py "cv.PDF") = Some (py "PDF")
  /\ py "PDF" <> py "pdf" /\ py "PDF" <> py "docx"
  /\ extract_resume_text posixpath (world_with (py "Jane Doe") always_failing)
       (py "cv.PDF") []
     = (Ok (py "Jane Doe"), [ExtractPdf (py "cv.PDF")])
  /\ extract_resume_text posixpath (world_with (py "Jane Doe") always_failing)
       (py "cv.PDF") [] <> (Ok [], []).
Proof.
  split; [reflexivity|]. split; [vm_compute; discriminate|].
  split; [vm_compute; discriminate|]. split; [reflexivity | vm_compute; discriminate].
Qed.

(** C6, amended: a path whose extension, the part after its last dot, is
    neither pdf nor docx when letter case is set aside (the code lowers it)
    gets the empty string, with no error and no library call. *)
Theorem other_extension_yields_empty osp w path h :
  option_map py_lower (after_last_dot path) <> Some (py "pdf") ->
  option_map py_lower (after_last_dot path) <> Some (py "docx") ->
  extract_resume_text osp w path h = (Ok [], h).
Proof.
  intros Hpdf Hdocx. unfold extract_resume_text.
  destruct (splitext_ext osp path) as [H | (e & He & H)]; rewrite H.
  - destruct (decide (py_lower [] = py ".pdf")) as [A|_]; [discriminate A|].
    destruct (decide (py_lower [] = py ".docx")) as [A|_]; [discriminate A|].
    reflexivity.
  - rewrite He in Hpdf, Hdocx. cbn [option_map] in Hpdf, Hdocx.
    destruct (decide (py_lower (ch "." :: e) = py ".pdf")) as [A|_].
    { exfalso. apply Hpdf. f_equal.
      change (py ".pdf") with (ch "." :: py "pdf") in A.
      apply (f_equal (@tl char)) in A. exact A. }
    destruct (decide (py_lower (ch "." :: e) = py ".docx")) as [A|_].
    { exfalso. apply Hdocx. f_equal.
      change (py ".docx") with (ch "." :: py "docx") in A.
      apply (f_equal (@tl char)) in A. exact A. }
    reflexivity.
Qed.

Lemma other_extension_yields_empty_witness :
  extract_resume_text posixpath (world_with (py "unused") always_failing)
    (py "temp/notes.v2.txt") [] = (Ok [], []).
Proof.
  apply (other_extension_yields_empty posixpath _ (py "temp/notes.v2.txt") []);
    vm_compute; discriminate.
Defined.

(** ** POST /upload *)

Lemma upload_reaches_analysis (env : environ) (osp : os_path) (w : world)
    (files : gmap pystr FileStorage) file h text h1 reply h2 :
  files !! py "resume" = Some file ->
  upload_text osp w file h = (Ok text, h1) ->
  strip text <> [] ->
  _call_groq env w (upload_prompt text) default_max_retries h1 = (Ok reply, h2) ->
  upload_resume env osp w files h = (analysis_response reply, h2).
Proof.
  intros Hf Ht Hs Hg. unfold upload_resume. rewrite Hf.
  unfold upload_body, bind. rewrite Ht.
  destruct (strip text) as [|c t] eqn:E; [congruence|].
  cbn [truthy negb]. rewrite Hg. reflexivity.
Qed.

Lemma analysis_response_incomplete reply :
  rating (parse_reply reply) = None \/ rating (parse_reply reply) = Some []
  \/ suggestions (parse_reply reply) = None \/ suggestions (parse_reply reply) = Some []
  \/ example (parse_reply reply) = None \/ example (parse_reply reply) = Some [] ->
  analysis_response reply = incomplete_analysis reply.
Proof.
  unfold analysis_response, incomplete_analysis.
  intros [H|[H|[H|[H|[H|H]]]]]; rewrite H; cbn [of_opt truthy];
    rewrite ?andb_false_r; reflexivity.
Qed.

(** C7: without a field named resume the answer is 400 with the one error
    field, and the history is untouched: nothing was saved, read or sent. *)
Theorem upload_without_file (env : environ) (osp : os_path) (w : world)
    (files : gmap pystr FileStorage) (h : history) :
  files !! py "resume" = None ->
  upload_resume env osp w files h
  = ({| body := [("error"%string, JStr (py "No file uploaded"))]; status := 400 |}, h).
Proof. intros H. unfold upload_resume. rewrite H. reflexivity. Qed.

Lemma upload_without_file_witness :
  upload_resume configured posixpath (world_with (py "unused") always_failing) ∅ []
  = ({| body := [("error"%string, JStr (py "No file uploaded"))]; status := 400 |}, []).
Proof.
  apply (upload_without_file configured posixpath _ ∅ []).
  reflexivity.
Defined.

(** C1: when one of the three patterns finds nothing in the reply the
    completion client returned, /upload answers 500 with the error message
    and the reply under raw_ai_output, and with no field of a success. *)
Theorem upload_incomplete_analysis (env : environ) (osp : os_path) (w : world)
    (files : gmap pystr FileStorage) file h text h1 reply h2 :
  files !! py "resume" = Some file ->
  upload_text osp w file h = (Ok text, h1) ->
  strip text <> [] ->
  _call_groq env w (upload_prompt text) default_max_retries h1 = (Ok reply, h2) ->
  search I_ rating_re reply = None
  \/ search I_S suggestions_re reply = None
  \/ search I_S example_re reply = None ->
  upload_resume env osp w files h
  = ({| body := [("error"%string,
                  JStr (py "AI could not provide a complete analysis. Please try again."));
                 ("raw_ai_output"%string, JStr reply)];
        status := 500 |}, h2).
Proof.
  intros Hf Ht Hs Hg Hmiss.
  rewrite (upload_reaches_analysis env osp w files file h text h1 reply h2 Hf Ht Hs Hg).
  rewrite analysis_response_incomplete; [reflexivity|].
  unfold parse_reply. cbn [rating suggestions example].
  destruct Hmiss as [H|[H|H]]; rewrite H; tauto.
Qed.

Lemma upload_incomplete_analysis_witness :
  fst (upload_resume configured posixpath
         (world_with (py "Jane Doe, engineer") (fun _ => Ok reply_without_example))
         (one_upload (py "cv.pdf")) [])
  = {| body := [("error"%string,
                 JStr (py "AI could not provide a complete analysis. Please try again."));
                ("raw_ai_output"%string, JStr reply_without_example)];
       status := 500 |}.
Proof.
  erewrite (upload_incomplete_analysis configured posixpath _ (one_upload (py "cv.pdf"))
              {| filename := py "cv.pdf" |} [] (py "Jane Doe, engineer")).
  - reflexivity.
  - reflexivity.
  - reflexivity.
  - vm_compute. discriminate.
  - reflexivity.
  - right. right. vm_compute. reflexivity.
Defined.

(** ** The completion client *)

Lemma py_range_step a b : (a < b)%Z -> py_range a b = a :: py_range (a + 1) b.
Proof.
  intros H. unfold py_range.
  replace (Z.to_nat (b - a)) with (S (Z.to_nat (b - (a + 1)))) by lia.
  cbn [seq map]. f_equal; [lia|].
  rewrite <- seq_shift, map_map. apply map_ext. intros i. lia.
Qed.

Lemma py_range_empty a b : (b <= a)%Z -> py_range a b = [].
Proof.
  intros H. unfold py_range. replace (Z.to_nat (b - a)) with O by lia. reflexivity.
Qed.

Lemma repeat_app_cons {A} (x : A) n l : repeat x n ++ x :: l = x :: repeat x n ++ l.
Proof. induction n as [|n IH]; simpl; [reflexivity|]. rewrite IH. reflexivity. Qed.

(** The loop when every attempt from [k] to [max_retries] raises: it makes
    each of them and is left at the last one, with its exception. *)
Lemma attempt_loop_all_fail env w prompt max_retries :
  forall (m : nat) (k : Z) (errs : nat -> pystr) last h,
    (k + Z.of_nat m = max_retries)%Z ->
    (forall i, (i <= m)%nat ->
       responses_create w (repeat (CreateResponse (GROQ_MODEL env) prompt 2048) i ++ h)
         (GROQ_MODEL env) prompt 2048 = Raise (errs i)) ->
    attempt_loop env w prompt max_retries (py_range k (max_retries + 1)) last h
    = (Fell (Some (errs m)),
       repeat (CreateResponse (GROQ_MODEL env) prompt 2048) (S m) ++ h).
Proof.
  induction m as [|m IH]; intros k errs last h Hk Herr.
  - rewrite py_range_step by lia. rewrite (py_range_empty (k + 1)) by lia.
    cbn [attempt_loop]. pose proof (Herr O (Nat.le_refl _)) as H0.
    cbn [repeat app] in H0. rewrite H0.
    replace (k =? max_retries)%Z with true by (symmetry; apply Z.eqb_eq; lia).
    reflexivity.
  - rewrite py_range_step by lia. cbn [attempt_loop].
    pose proof (Herr O (Nat.le_0_l _)) as H0. cbn [repeat app] in H0. rewrite H0.
    replace (k =? max_retries)%Z with false by (symmetry; apply Z.eqb_neq; lia).
    rewrite (IH (k + 1)%Z (fun i => errs (S i))).
    + rewrite repeat_app_cons. reflexivity.
    + lia.
    + intros i Hi. rewrite repeat_app_cons. apply (Herr (S i)). lia.
Qed.

(** C4: when each of the [max_retries] attempts raises, the client makes
    exactly that many calls (three by default) and raises an error whose
    message holds the attempt count and the text of the last exception. *)
Theorem all_attempts_fail (env : environ) (w : world) (prompt : pystr)
    (max_retries : Z) (errs : nat -> pystr) (h : history) :
  client env = true ->
  (1 <= max_retries)%Z ->
  (forall i, (i < Z.to_nat max_retries)%nat ->
     responses_create w (repeat (CreateResponse (GROQ_MODEL env) prompt 2048) i ++ h)
       (GROQ_MODEL env) prompt 2048 = Raise (errs i)) ->
  _call_groq env w prompt max_retries h
  = (Raise (py "Groq AI request failed after " ++ str_int max_retries
            ++ py " attempts: " ++ errs (Z.to_nat max_retries - 1)%nat),
     repeat (CreateResponse (GROQ_MODEL env) prompt 2048) (Z.to_nat max_retries) ++ h)
  /\ occurs (str_int max_retries)
       (py "Groq AI request failed after " ++ str_int max_retries
        ++ py " attempts: " ++ errs (Z.to_nat max_retries - 1)%nat)
  /\ occurs (errs (Z.to_nat max_retries - 1)%nat)
       (py "Groq AI request failed after " ++ str_int max_retries
        ++ py " attempts: " ++ errs (Z.to_nat max_retries - 1)%nat)
  /\ default_max_retries = 3%Z.
Proof.
  intros Hc Hm Herr. split; [|split; [|split]].
  - unfold _call_groq. rewrite Hc. cbn [negb].
    rewrite (attempt_loop_all_fail env w prompt max_retries
               (Z.to_nat max_retries - 1) 1%Z errs None h).
    + replace (S (Z.to_nat max_retries - 1)) with (Z.to_nat max_retries) by lia.
      reflexivity.
    + lia.
    + intros i Hi. apply Herr. lia.
  - exists (py "Groq AI request failed after "),
      (py " attempts: " ++ errs (Z.to_nat max_retries - 1)%nat).
    reflexivity.
  - exists (py "Groq AI request failed after " ++ str_int max_retries ++ py " attempts: "), [].
    rewrite app_nil_r, <- !app_assoc. reflexivity.
  - reflexivity.
Qed.

Lemma all_attempts_fail_witness :
  _call_groq configured (world_with (py "unused") always_failing) (py "hello")
    default_max_retries []
  = (Raise (py "Groq AI request failed after 3 attempts: connection reset"),
     [CreateResponse (py "llama-3.3-70b-versatile") (py "hello") 2048;
      CreateResponse (py "llama-3.3-70b-versatile") (py "hello") 2048;
      CreateResponse (py "llama-3.3-70b-versatile") (py "hello") 2048]).
Proof.
  apply (all_attempts_fail configured (world_with (py "unused") always_failing)
           (py "hello") 3 (fun _ => py "connection reset") []).
  - reflexivity.
  - lia.
  - intros i _. reflexivity.
Defined.

(** C5: when the first two attempts raise and the third succeeds, the
    client returns the third attempt's text, trimmed as line 50 has it, and
    has made three calls and no fourth. *)
Theorem third_attempt_succeeds (env : environ) (w : world) (prompt e1 e2 text : pystr)
    (h : history) :
  client env = true ->
  responses_create w h (GROQ_MODEL env) prompt 2048 = Raise e1 ->
  responses_create w (CreateResponse (GROQ_MODEL env) prompt 2048 :: h)
    (GROQ_MODEL env) prompt 2048 = Raise e2 ->
  responses_create w (CreateResponse (GROQ_MODEL env) prompt 2048
                      :: CreateResponse (GROQ_MODEL env) prompt 2048 :: h)
    (GROQ_MODEL env) prompt 2048 = Ok text ->
  _call_groq env w prompt default_max_retries h
  = (Ok (strip text),
     CreateResponse (GROQ_MODEL env) prompt 2048
     :: CreateResponse (GROQ_MODEL env) prompt 2048
     :: CreateResponse (GROQ_MODEL env) prompt 2048 :: h).
Proof.
  intros Hc H1 H2 H3. unfold _call_groq. rewrite Hc. cbn [negb].
  change (py_range 1 (default_max_retries + 1)) with [1%Z; 2%Z; 3%Z].
  cbn [attempt_loop]. rewrite H1. cbn [Z.eqb default_max_retries Pos.eqb].
  rewrite H2. cbn [Z.eqb Pos.eqb]. rewrite H3. reflexivity.
Qed.

Lemma third_attempt_succeeds_witness :
  _call_groq configured (world_with (py "unused") (fails_twice (py " Rating: 8 ")))
    (py "hello") default_max_retries []
  = (Ok (py "Rating: 8"),
     [CreateResponse (py "llama-3.3-70b-versatile") (py "hello") 2048;
      CreateResponse (py "llama-3.3-70b-versatile") (py "hello") 2048;
      CreateResponse (py "llama-3.3-70b-versatile") (py "hello") 2048]).
Proof.
  apply (third_attempt_succeeds configured
           (world_with (py "unused") (fails_twice (py " Rating: 8 ")))
           (py "hello") (py "timeout") (py "timeout") (py " Rating: 8 ") []);
    reflexivity.
Defined.

(** ** POST /analyze *)

(** C8, as stated, fails on a JSON body that is not an object: the body
    [null], or an array, has no resume_text field, and the request is not
    answered 400: [data.get] raises outside the [try] and the client sees
    Flask's 500. *)
Lemma analyze_body_not_an_object :
  analyze_resume configured (world_with (py "unused") always_failing) (JsonOther JNull) []
  = (Crashes "AttributeError", [])
  /\ http_status (fst (analyze_resume configured (world_with (py "unused") always_failing)
                         (JsonOther JNull) [])) <> 400%Z
  /\ http_status (fst (analyze_resume configured (world_with (py "unused") always_failing)
                         (JsonOther (JOther true (py "[1, 2]"))) [])) = 500%Z.
Proof. split; [reflexivity | split; [discriminate | reflexivity]]. Qed.

(** C8, amended: for a JSON body that is an object, a resume_text that is
    absent or falsy (the empty string, null, false, zero, an empty array or
    object) is answered 400 with the missing-text error and no completion
    call; a truthy resume_text for which the client returns a reply is
    answered 200 with exactly the reply, unparsed, and the model
    identifier. *)
Theorem analyze_contract (env : environ) (w : world) (fields : gmap pystr json)
    (h : history) :
  (fields !! py "resume_text" = None
   \/ (exists v, fields !! py "resume_text" = Some v /\ truthy v = false) ->
   analyze_resume env w (JsonObject fields) h
   = (Responds {| body := [("error"%string, JStr (py "No resume text provided"))];
                  status := 400 |}, h))
  /\ (forall v reply h',
        fields !! py "resume_text" = Some v ->
        truthy v = true ->
        _call_groq env w (analyze_prompt v) default_max_retries h = (Ok reply, h') ->
        analyze_resume env w (JsonObject fields) h
        = (Responds {| body := [("ai_suggestions"%string, JStr reply);
                                ("model"%string, JStr (GROQ_MODEL env))];
                       status := 200 |}, h')).
Proof.
  split.
  - intros [H | (v & H & Hv)]; unfold analyze_resume; rewrite H; cbv zeta.
    + reflexivity.
    + rewrite Hv. reflexivity.
  - intros v reply h' H Hv Hg. unfold analyze_resume. rewrite H.
    cbv zeta. rewrite Hv. cbn [negb]. rewrite Hg. reflexivity.
Qed.

Lemma analyze_contract_witness :
  analyze_resume configured (world_with (py "unused") always_failing) (JsonObject ∅) []
  = (Responds {| body := [("error"%string, JStr (py "No resume text provided"))];
                 status := 400 |}, [])
  /\ analyze_resume configured (world_with (py "unused") always_failing)
       (JsonObject {[ py "resume_text" := JNull ]}) []
     = (Responds {| body := [("error"%string, JStr (py "No resume text provided"))];
                    status := 400 |}, [])
  /\ fst (analyze_resume configured
            (world_with (py "unused") (fun _ => Ok (py "- add metrics")))
            (JsonObject {[ py "resume_text" := JStr (py "Jane Doe") ]}) [])
     = Responds {| body := [("ai_suggestions"%string, JStr (py "- add metrics"));
                            ("model"%string, JStr (py "llama-3.3-70b-versatile"))];
                   status := 200 |}.
Proof.
  split; [|split].
  - apply (proj1 (analyze_contract configured _ ∅ [])).
    left. reflexivity.
  - apply (proj1 (analyze_contract configured _ {[ py "resume_text" := JNull ]} [])).
    right. exists JNull. split; reflexivity.
  - erewrite (proj2 (analyze_contract configured _ _ []) (JStr (py "Jane Doe"))).
    + reflexivity.
    + reflexivity.
    + reflexivity.
    + reflexivity.
Defined.

(** ** The rating pattern where it matches *)

Lemma digit_not_space c : is_digit c = true -> is_space c = false.
Proof.
  intros Hd. destruct (is_space c) eqn:E; [|reflexivity].
  unfold is_space in E. apply existsb_exists in E as (x & Hin & Heq).
  apply N.eqb_eq in Heq. subst x.
  cbn [In] in Hin.
  repeat (destruct Hin as [<-|Hin]; [vm_compute in Hd; discriminate Hd|]).
  destruct Hin.
Qed.

Section Continuations.
Context {R : Type}.
Variable fl : flags.

Lemma rmatch_group r s g (k : pystr -> option pystr -> option R) :
  rmatch fl (Group r) s g k
  = rmatch fl r s g (fun s' _ => k s' (Some (firstn (length s - length s')%nat s))).
Proof. reflexivity. Qed.

Lemma rmatch_alt r1 r2 s g (k : pystr -> option pystr -> option R) :
  rmatch fl (Alt r1 r2) s g k
  = match rmatch fl r1 s g k with
    | Some x => Some x
    | None => rmatch fl r2 s g k
    end.
Proof. reflexivity. Qed.

Lemma rmatch_eos s g (k : pystr -> option pystr -> option R) :
  rmatch fl Eos s g k = if at_end s then k s g else None.
Proof. reflexivity. Qed.

Lemma first_suffix_here (k : pystr -> option R) s r :
  k s = Some r -> first_suffix k s = Some r.
Proof. intros H. destruct s; cbn [first_suffix]; rewrite H; reflexivity. Qed.
End Continuations.

Lemma search_here fl r s m : match_at fl r s = Some m -> search fl r s = Some m.
Proof. intros H. destruct s; cbn [search]; rewrite H; reflexivity. Qed.

(** The group [\d{1,2}] in front of two digits takes both, whatever follows. *)
Lemma rating_group d1 d2 post (g : option pystr) :
  is_digit d1 = true -> is_digit d2 = true ->
  rmatch I_ (Group (Rep Digit 1 (Some 2%nat) true)) (d1 :: d2 :: post) g
    (fun _ g => Some {| group_1 := g |})
  = Some {| group_1 := Some [d1; d2] |}.
Proof.
  intros H1 H2. cbn [rmatch]. cbn [repeat_atom below atom_match]. rewrite H1, H2.
  cbn [Nat.ltb Nat.leb andb].
  destruct post as [|c post]; cbn; [reflexivity|].
  replace (S (S (length post)) - length post)%nat with 2%nat by lia.
  reflexivity.
Qed.

Lemma rating_at d1 d2 post :
  is_digit d1 = true -> is_digit d2 = true ->
  match_at I_ rating_re (py "Rating: " ++ d1 :: d2 :: post)
  = Some {| group_1 := Some [d1; d2] |}.
Proof.
  intros H1 H2. unfold match_at, rating_re.
  rewrite rmatch_seq, rmatch_lits.
  change (strip_prefix I_ (py "Rating") (py "Rating: " ++ d1 :: d2 :: post))
    with (Some (ch ":" :: ch " " :: d1 :: d2 :: post)).
  cbn beta iota.
  rewrite rmatch_seq. unfold star at 1. rewrite rmatch_rep.
  apply greedy_space_max. rewrite lstrip_nonspace by reflexivity.
  rewrite rmatch_seq. unfold opt. rewrite rmatch_rep, opt_unfold.
  change (atom_match I_ (OneOf [ch ":"; ch "-"]) (ch ":")) with true.
  cbn beta iota.
  assert (Hin : rmatch I_ (Seq (star Space) (Group (Rep Digit 1 (Some 2%nat) true)))
                  (ch " " :: d1 :: d2 :: post) None (fun _ g => Some {| group_1 := g |})
                = Some {| group_1 := Some [d1; d2] |}).
  { rewrite rmatch_seq. unfold star. rewrite rmatch_rep.
    apply greedy_space_max.
    change (lstrip (ch " " :: d1 :: d2 :: post)) with (lstrip (d1 :: d2 :: post)).
    rewrite lstrip_nonspace by (apply digit_not_space; exact H1).
    apply rating_group; assumption. }
  rewrite Hin. reflexivity.
Qed.

Lemma rating_field_first_match pre d1 d2 post :
  no_match_before I_ rating_re (length pre) (pre ++ py "Rating: " ++ d1 :: d2 :: post) = true ->
  is_digit d1 = true -> is_digit d2 = true ->
  rating (parse_reply (pre ++ py "Rating: " ++ d1 :: d2 :: post)) = Some [d1; d2].
Proof.
  intros Hn H1 H2. unfold parse_reply. cbn [rating].
  rewrite (search_skip _ _ _ _ Hn).
  rewrite (search_here _ _ _ _ (rating_at d1 d2 post H1 H2)). reflexivity.
Qed.

Lemma analysis_response_success reply r s e :
  rating (parse_reply reply) = Some r -> r <> [] ->
  suggestions (parse_reply reply) = Some s -> s <> [] ->
  example (parse_reply reply) = Some e -> e <> [] ->
  analysis_response reply
  = jsonify [("ai_rating"%string, JStr r); ("ai_suggestions"%string, JStr s);
             ("ai_example"%string, JStr e); ("raw_ai_output"%string, JStr reply)] 200.
Proof.
  intros Hr Hr' Hs Hs' He He'. unfold analysis_response. rewrite Hr, Hs, He.
  destruct r; [congruence|]. destruct s; [congruence|]. destruct e; [congruence|].
  reflexivity.
Qed.

(** C9, as stated, fails on a reply that holds the text Rating: 99 after an
    earlier mention of a rating: both other fields match and the answer is
    a success, with the rating 7 of the earlier mention. *)
Lemma earlier_rating_wins :
  occurs (py "Rating: 99") reply_two_ratings
  /\ rating (parse_reply reply_two_ratings) <> Some (py "99")
  /\ suggestions (parse_reply reply_two_ratings) = Some (py "a")
  /\ example (parse_reply reply_two_ratings) = Some (py "b")
  /\ fst (upload_resume configured posixpath
            (world_with (py "Jane Doe") (fun _ => Ok reply_two_ratings))
            (one_upload (py "cv.pdf")) [])
     = {| body := [("ai_rating"%string, JStr (py "7"));
                   ("ai_suggestions"%string, JStr (py "a"));
                   ("ai_example"%string, JStr (py "b"));
                   ("raw_ai_output"%string, JStr reply_two_ratings)];
          status := 200 |}.
Proof.
  split; [|split; [vm_compute; discriminate | repeat split; vm_compute; reflexivity]].
  exists (py "My rating - 7 of 10." ++ nl),
    (nl ++ py "Suggestions: a" ++ nl ++ py "Example of rewritten section: b").
  vm_compute. reflexivity.
Qed.

(** C9, amended: there is no range check. When the rating pattern matches
    nowhere before the text Rating: 99 of the reply, and the suggestions and
    example fields are matched and not empty after trimming, /upload
    answers with a success whose ai_rating is 99; and when it matches
    nowhere before the text Rating: 100, the rating is 10, the first two
    digits. *)
Theorem rating_is_not_range_checked (env : environ) (osp : os_path) (w : world)
    (files : gmap pystr FileStorage) file h text h1 pre post h2 sugg ex :
  files !! py "resume" = Some file ->
  upload_text osp w file h = (Ok text, h1) ->
  strip text <> [] ->
  _call_groq env w (upload_prompt text) default_max_retries h1
  = (Ok (pre ++ py "Rating: 99" ++ post), h2) ->
  no_match_before I_ rating_re (length pre) (pre ++ py "Rating: 99" ++ post) = true ->
  suggestions (parse_reply (pre ++ py "Rating: 99" ++ post)) = Some sugg -> sugg <> [] ->
  example (parse_reply (pre ++ py "Rating: 99" ++ post)) = Some ex -> ex <> [] ->
  upload_resume env osp w files h
  = ({| body := [("ai_rating"%string, JStr (py "99"));
                 ("ai_suggestions"%string, JStr sugg);
                 ("ai_example"%string, JStr ex);
                 ("raw_ai_output"%string, JStr (pre ++ py "Rating: 99" ++ post))];
        status := 200 |}, h2)
  /\ (forall pre' post',
        no_match_before I_ rating_re (length pre') (pre' ++ py "Rating: 100" ++ post') = true ->
        rating (parse_reply (pre' ++ py "Rating: 100" ++ post')) = Some (py "10")).
Proof.
  intros Hf Ht Hs Hg Hn Hsu Hsu' Hex Hex'. split.
  - rewrite (upload_reaches_analysis env osp w files file h text h1 _ h2 Hf Ht Hs Hg).
    rewrite (analysis_response_success _ (py "99") sugg ex); try assumption.
    + reflexivity.
    + change (py "Rating: 99" ++ post) with (py "Rating: " ++ ch "9" :: ch "9" :: post) in *.
      apply rating_field_first_match; [assumption | reflexivity | reflexivity].
    + discriminate.
  - intros pre' post' Hn'.
    change (py "Rating: 100" ++ post')
      with (py "Rating: " ++ ch "1" :: ch "0" :: ch "0" :: post') in *.
    apply (rating_field_first_match pre' (ch "1") (ch "0")); [assumption | reflexivity | reflexivity].
Qed.

Lemma rating_is_not_range_checked_witness :
  fst (upload_resume configured posixpath
         (world_with (py "Jane Doe")
            (fun _ => Ok (reply_preamble ++ py "Rating: 99" ++ reply_sections)))
         (one_upload (py "cv.pdf")) [])
  = {| body := [("ai_rating"%string, JStr (py "99"));
                ("ai_suggestions"%string, JStr (py "use verbs"));
                ("ai_example"%string, JStr (py "Led a team"));
                ("raw_ai_output"%string,
                 JStr (reply_preamble ++ py "Rating: 99" ++ reply_sections))];
       status := 200 |}.
Proof.
  refine (f_equal fst
            (proj1 (rating_is_not_range_checked configured posixpath _
                      (one_upload (py "cv.pdf")) {| filename := py "cv.pdf" |} []
                      (py "Jane Doe") (saved_and_read (py "temp/cv.pdf"))
                      reply_preamble reply_sections
                      (CreateResponse (py "llama-3.3-70b-versatile")
                         (upload_prompt (py "Jane Doe")) 2048
                       :: saved_and_read (py "temp/cv.pdf"))
                      (py "use verbs") (py "Led a team") _ _ _ _ _ _ _ _ _))).
  - reflexivity.
  - reflexivity.
  - vm_compute. discriminate.
  - reflexivity.
  - vm_compute. reflexivity.
  - vm_compute. reflexivity.
  - vm_compute. discriminate.
  - vm_compute. reflexivity.
  - vm_compute. discriminate.
Defined.

(** ** The suggestions pattern where it matches *)

(** Where the word is followed by whitespace and the example marker, the
    pattern matches with an empty group. *)
Lemma suggestions_at ws post :
  forallb is_space ws = true ->
  match_at I_S suggestions_re
    (py "Suggestions" ++ ws ++ py "Example of rewritten section" ++ post)
  = Some {| group_1 := Some [] |}.
Proof.
  intros Hws. unfold match_at, suggestions_re.
  rewrite rmatch_seq, rmatch_lits.
  change (strip_prefix I_S (py "Suggestions")
            (py "Suggestions" ++ ws ++ py "Example of rewritten section" ++ post))
    with (Some (ws ++ py "Example of rewritten section" ++ post)).
  cbn beta iota.
  rewrite rmatch_seq. unfold star at 1. rewrite rmatch_rep.
  apply greedy_space_max. rewrite (lstrip_spaces_app _ _ Hws).
  change (py "Example of rewritten section" ++ post)
    with (ch "E" :: py "xample of rewritten section" ++ post).
  rewrite lstrip_nonspace by reflexivity.
  rewrite rmatch_seq. unfold opt. rewrite rmatch_rep, opt_unfold.
  change (atom_match I_S (OneOf [ch ":"; ch "-"]) (ch "E")) with false.
  cbn beta iota.
  rewrite rmatch_seq. unfold star at 1. rewrite rmatch_rep.
  apply greedy_space_max. rewrite lstrip_nonspace by reflexivity.
  rewrite rmatch_seq, rmatch_group. unfold star_lazy. rewrite rmatch_rep.
  rewrite lazy_dot_star by reflexivity.
  apply first_suffix_here. rewrite rmatch_alt, rmatch_lits.
  change (strip_prefix I_S example_marker
            (ch "E" :: py "xample of rewritten section" ++ post))
    with (Some post).
  cbn beta iota. rewrite Nat.sub_diag. reflexivity.
Qed.

(** C10, as stated, fails on a reply that uses the word suggestions before
    the section of that name: the section is followed at once by the example
    marker, and yet the suggestions field is not empty and the answer is a
    success. *)
Lemma earlier_suggestions_wins :
  reply_two_suggestions
  = (py "Rating: 7" ++ nl ++ py "Here are my suggestions - see below." ++ nl)
    ++ py "Suggestions" ++ nl ++ py "Example of rewritten section" ++ py ": Better text"
  /\ forallb is_space nl = true
  /\ suggestions (parse_reply reply_two_suggestions) <> Some []
  /\ suggestions (parse_reply reply_two_suggestions)
     = Some (py "see below." ++ nl ++ py "Suggestions")
  /\ fst (upload_resume configured posixpath
            (world_with (py "Jane Doe") (fun _ => Ok reply_two_suggestions))
            (one_upload (py "cv.pdf")) [])
     = {| body := [("ai_rating"%string, JStr (py "7"));
                   ("ai_suggestions"%string, JStr (py "see below." ++ nl ++ py "Suggestions"));
                   ("ai_example"%string, JStr (py "Better text"));
                   ("raw_ai_output"%string, JStr reply_two_suggestions)];
          status := 200 |}.
Proof.
  split; [vm_compute; reflexivity|]. split; [vm_compute; reflexivity|].
  split; [vm_compute; discriminate|]. split; vm_compute; reflexivity.
Qed.

(** C10, amended: a field that is matched but empty after trimming counts
    as missing. When the suggestions pattern matches nowhere before the
    word Suggestions of the reply, and that word is followed, up to
    whitespace, by the example marker, the suggestions field is the empty
    string and /upload answers 500 with the incomplete-analysis error; and
    any reply with an empty field gets that answer. *)
Theorem empty_suggestions_is_incomplete (env : environ) (osp : os_path) (w : world)
    (files : gmap pystr FileStorage) file h text h1 pre ws post h2 :
  files !! py "resume" = Some file ->
  upload_text osp w file h = (Ok text, h1) ->
  strip text <> [] ->
  _call_groq env w (upload_prompt text) default_max_retries h1
  = (Ok (pre ++ py "Suggestions" ++ ws ++ py "Example of rewritten section" ++ post), h2) ->
  no_match_before I_S suggestions_re (length pre)
    (pre ++ py "Suggestions" ++ ws ++ py "Example of rewritten section" ++ post) = true ->
  forallb is_space ws = true ->
  suggestions (parse_reply
                 (pre ++ py "Suggestions" ++ ws ++ py "Example of rewritten section" ++ post))
  = Some []
  /\ upload_resume env osp w files h
     = ({| body := [("error"%string,
                     JStr (py "AI could not provide a complete analysis. Please try again."));
                    ("raw_ai_output"%string,
                     JStr (pre ++ py "Suggestions" ++ ws
                           ++ py "Example of rewritten section" ++ post))];
           status := 500 |}, h2)
  /\ (forall reply,
        rating (parse_reply reply) = Some []
        \/ suggestions (parse_reply reply) = Some []
        \/ example (parse_reply reply) = Some [] ->
        analysis_response reply = incomplete_analysis reply).
Proof.
  intros Hf Ht Hs Hg Hn Hws.
  assert (Hsu : suggestions (parse_reply
                  (pre ++ py "Suggestions" ++ ws ++ py "Example of rewritten section" ++ post))
                = Some []).
  { unfold parse_reply. cbn [suggestions].
    rewrite (search_skip _ _ _ _ Hn).
    rewrite (search_here _ _ _ _ (suggestions_at ws post Hws)). reflexivity. }
  split; [exact Hsu | split].
  - rewrite (upload_reaches_analysis env osp w files file h text h1 _ h2 Hf Ht Hs Hg).
    rewrite analysis_response_incomplete by tauto. reflexivity.
  - intros reply H. apply analysis_response_incomplete. tauto.
Qed.

Lemma empty_suggestions_is_incomplete_witness :
  fst (upload_resume configured posixpath
         (world_with (py "Jane Doe")
            (fun _ => Ok ((py "Rating: 7" ++ nl) ++ py "Suggestions" ++ (ch " " :: nl)
                          ++ py "Example of rewritten section" ++ py ": Better text")))
         (one_upload (py "cv.pdf")) [])
  = incomplete_analysis
      ((py "Rating: 7" ++ nl) ++ py "Suggestions" ++ (ch " " :: nl)
       ++ py "Example of rewritten section" ++ py ": Better text").
Proof.
  refine (f_equal fst
            (proj1 (proj2 (empty_suggestions_is_incomplete configured posixpath _
                      (one_upload (py "cv.pdf")) {| filename := py "cv.pdf" |} []
                      (py "Jane Doe") (saved_and_read (py "temp/cv.pdf"))
                      (py "Rating: 7" ++ nl) (ch " " :: nl) (py ": Better text")
                      (CreateResponse (py "llama-3.3-70b-versatile")
                         (upload_prompt (py "Jane Doe")) 2048
                       :: saved_and_read (py "temp/cv.pdf"))
                      _ _ _ _ _ _)))).
  - reflexivity.
  - reflexivity.
  - vm_compute. discriminate.
  - reflexivity.
  - vm_compute. reflexivity.
  - vm_compute. reflexivity.
Defined.

(** ** Other answers of the handlers *)

(** Without a credential the client raises the configuration error and
    makes no call (lines 38 and 39). *)
Theorem call_without_credential (env : environ) (w : world) (prompt : pystr)
    (max_retries : Z) (h : history) :
  client env = false ->
  _call_groq env w prompt max_retries h
  = (Raise (py "GROQ_API_KEY is not configured on the server."), h).
Proof. intros H. unfold _call_groq. rewrite H. reflexivity. Qed.

Lemma call_without_credential_witness :
  _call_groq {| env_GROQ_MODEL := None; env_GROQ_API_KEY := None |}
    (world_with (py "unused") always_failing) (py "hello") default_max_retries []
  = (Raise (py "GROQ_API_KEY is not configured on the server."), []).
Proof.
  apply (call_without_credential {| env_GROQ_MODEL := None; env_GROQ_API_KEY := None |}).
  reflexivity.
Defined.

(** An upload whose text is empty or whitespace is answered 400, and no
    completion call is made (lines 81 and 82). *)
Theorem upload_blank_text (env : environ) (osp : os_path) (w : world)
    (files : gmap pystr FileStorage) file h text h1 :
  files !! py "resume" = Some file ->
  upload_text osp w file h = (Ok text, h1) ->
  strip text = [] ->
  upload_resume env osp w files h
  = ({| body := [("error"%string, JStr (py "Could not extract text from resume."))];
        status := 400 |}, h1).
Proof.
  intros Hf Ht Hs. unfold upload_resume. rewrite Hf.
  unfold upload_body, bind. rewrite Ht, Hs. reflexivity.
Qed.

Lemma upload_blank_text_witness :
  upload_resume configured posixpath (world_with (py "  ") always_failing)
    (one_upload (py "scan.pdf")) []
  = ({| body := [("error"%string, JStr (py "Could not extract text from resume."))];
        status := 400 |}, saved_and_read (py "temp/scan.pdf")).
Proof.
  apply (upload_blank_text configured posixpath _ (one_upload (py "scan.pdf"))
           {| filename := py "scan.pdf" |} [] (py "  "));
    reflexivity.
Defined.

(** An exception of the completion client is answered 500 with its text
    (lines 107 and 108). *)
Theorem upload_client_error (env : environ) (osp : os_path) (w : world)
    (files : gmap pystr FileStorage) file h text h1 e h2 :
  files !! py "resume" = Some file ->
  upload_text osp w file h = (Ok text, h1) ->
  strip text <> [] ->
  _call_groq env w (upload_prompt text) default_max_retries h1 = (Raise e, h2) ->
  upload_resume env osp w files h
  = ({| body := [("error"%string, JStr e)]; status := 500 |}, h2).
Proof.
  intros Hf Ht Hs Hg. unfold upload_resume. rewrite Hf.
  unfold upload_body, bind. rewrite Ht.
  destruct (strip text) as [|c t] eqn:E; [congruence|].
  cbn [truthy negb]. rewrite Hg. reflexivity.
Qed.

Lemma upload_client_error_witness :
  fst (upload_resume configured posixpath (world_with (py "Jane Doe") always_failing)
         (one_upload (py "cv.pdf")) [])
  = {| body := [("error"%string,
                 JStr (py "Groq AI request failed after 3 attempts: connection reset"))];
       status := 500 |}.
Proof.
  refine (f_equal fst
            (upload_client_error configured posixpath _ (one_upload (py "cv.pdf"))
               {| filename := py "cv.pdf" |} [] (py "Jane Doe")
               (saved_and_read (py "temp/cv.pdf"))
               (py "Groq AI request failed after 3 attempts: connection reset")
               (repeat (CreateResponse (py "llama-3.3-70b-versatile")
                          (upload_prompt (py "Jane Doe")) 2048) 3
                ++ saved_and_read (py "temp/cv.pdf"))
               _ _ _ _)).
  - reflexivity.
  - reflexivity.
  - vm_compute. discriminate.
  - reflexivity.
Defined.

(** ** The suggestions field *)

Lemma rstrip_app_space s c : is_space c = true -> rstrip (s ++ [c]) = rstrip s.
Proof.
  intros H. unfold rstrip. rewrite rev_app_distr. cbn [rev app lstrip].
  rewrite H. reflexivity.
Qed.

Lemma lstrip_app_space s c :
  is_space c = true -> lstrip (s ++ [c]) = lstrip s ++ [c] \/ (lstrip (s ++ [c]) = [] /\ lstrip s = []).
Proof.
  intros H. induction s as [|x s IH]; cbn [app lstrip].
  - rewrite H. right. split; reflexivity.
  - destruct (is_space x); [exact IH | left; reflexivity].
Qed.

Lemma strip_app_space s c : is_space c = true -> strip (s ++ [c]) = strip s.
Proof.
  intros H. unfold strip.
  destruct (lstrip_app_space s c H) as [E | [E1 E2]].
  - rewrite E. apply rstrip_app_space. exact H.
  - rewrite E1, E2. reflexivity.
Qed.

Lemma lstrip_head s c s' : lstrip s = c :: s' -> is_space c = false.
Proof.
  induction s as [|x s IH]; cbn [lstrip]; [discriminate|].
  destruct (is_space x) eqn:E; [exact IH|].
  intros H. inversion H; subst. exact E.
Qed.

Lemma separator_match fl c :
  IGNORECASE fl = true ->
  atom_match fl (OneOf [ch ":"; ch "-"]) c = (c =? ch ":") || (c =? ch "-").
Proof.
  intros H. unfold atom_match, lit_match, ci_eq, ch. rewrite H. cbn.
  rewrite !orb_false_r. reflexivity.
Qed.

(** The text before the marker and the lazy group differ by at most the
    newline that ends the reply. *)
Lemma before_first_lazy_group s :
  before_first I_S example_marker s = lazy_group s
  \/ before_first I_S example_marker s = lazy_group s ++ [10].
Proof.
  induction s as [|c s IH]; cbn [before_first lazy_group].
  - destruct (strip_prefix I_S example_marker []); left; reflexivity.
  - destruct (strip_prefix I_S example_marker (c :: s)) eqn:E; [left; reflexivity|].
    destruct (at_end (c :: s)) eqn:Ee.
    + destruct s as [|y s]; [|discriminate Ee].
      cbn [at_end] in Ee. apply N.eqb_eq in Ee. subst c. right.
      cbn [before_first].
      destruct (strip_prefix I_S example_marker []); reflexivity.
    + destruct IH as [IH|IH]; rewrite IH; [left | right]; reflexivity.
Qed.

Lemma strip_before_first s :
  strip (before_first I_S example_marker s) = strip (lazy_group s).
Proof.
  destruct (before_first_lazy_group s) as [E|E]; rewrite E; [reflexivity|].
  apply strip_app_space. reflexivity.
Qed.

Lemma firstn_app_length (pre t : pystr) :
  firstn (length (pre ++ t) - length t) (pre ++ t) = pre.
Proof.
  rewrite length_app, Nat.add_sub.
  rewrite firstn_app, Nat.sub_diag, firstn_all. cbn [firstn]. apply app_nil_r.
Qed.

(** The lazy group followed by the marker or the end: it always matches,
    with the group [lazy_group]. *)
Lemma suggestions_scan pre t :
  first_suffix
    (fun t' => rmatch I_S (Alt (lits example_marker) Eos) t'
                 (Some (firstn (length (pre ++ t) - length t') (pre ++ t)))
                 (fun _ g => Some {| group_1 := g |})) t
  = Some {| group_1 := Some (pre ++ lazy_group t) |}.
Proof.
  revert pre. induction t as [|c t IH]; intros pre.
  - cbn [first_suffix lazy_group]. rewrite rmatch_alt, rmatch_lits.
    destruct (strip_prefix I_S example_marker []);
      cbn; rewrite Nat.sub_0_r, firstn_all; reflexivity.
  - cbn [first_suffix lazy_group]. rewrite rmatch_alt, rmatch_lits.
    destruct (strip_prefix I_S example_marker (c :: t)) eqn:E.
    + rewrite firstn_app_length, app_nil_r. reflexivity.
    + rewrite rmatch_eos. destruct (at_end (c :: t)) eqn:Ee.
      * rewrite firstn_app_length, app_nil_r. reflexivity.
      * replace (pre ++ c :: t) with ((pre ++ [c]) ++ t) by (rewrite <- app_assoc; reflexivity).
        rewrite IH. rewrite <- app_assoc. reflexivity.
Qed.

Lemma suggestions_group t (g : option pystr) :
  rmatch I_S (Seq (Group (star_lazy Dot)) (Alt (lits example_marker) Eos)) t g
    (fun _ g => Some {| group_1 := g |})
  = Some {| group_1 := Some (lazy_group t) |}.
Proof.
  rewrite rmatch_seq, rmatch_group. unfold star_lazy. rewrite rmatch_rep.
  rewrite lazy_dot_star by reflexivity.
  apply (suggestions_scan [] t).
Qed.

Lemma suggestions_spaces_group t (g : option pystr) :
  rmatch I_S (Seq (star Space) (Seq (Group (star_lazy Dot)) (Alt (lits example_marker) Eos)))
    t g (fun _ g => Some {| group_1 := g |})
  = Some {| group_1 := Some (lazy_group (lstrip t)) |}.
Proof.
  rewrite rmatch_seq. unfold star at 1. rewrite rmatch_rep.
  apply greedy_space_max. apply suggestions_group.
Qed.

(** After the word the pattern always matches. *)
Lemma suggestions_tail post :
  rmatch I_S
    (Seq (star Space)
      (Seq (opt (OneOf [ch ":"; ch "-"]))
        (Seq (star Space)
          (Seq (Group (star_lazy Dot)) (Alt (lits example_marker) Eos)))))
    post None (fun _ g => Some {| group_1 := g |})
  = Some {| group_1 := Some (lazy_group (skip_separator post)) |}.
Proof.
  rewrite rmatch_seq. unfold star at 1. rewrite rmatch_rep.
  apply greedy_space_max.
  rewrite rmatch_seq. unfold opt. rewrite rmatch_rep, opt_unfold.
  unfold skip_separator.
  destruct (lstrip post) as [|c s'] eqn:E.
  - rewrite suggestions_spaces_group. reflexivity.
  - rewrite separator_match by reflexivity.
    destruct ((c =? ch ":") || (c =? ch "-")).
    + rewrite suggestions_spaces_group. reflexivity.
    + rewrite suggestions_spaces_group.
      rewrite (lstrip_nonspace _ _ (lstrip_head _ _ _ E)). reflexivity.
Qed.

Lemma search_no_literal fl p r s :
  after_first fl p s = None -> search fl (Seq (lits p) r) s = None.
Proof.
  induction s as [|c s IH]; cbn [after_first search]; unfold match_at;
    rewrite rmatch_seq, rmatch_lits.
  - destruct (strip_prefix fl p []); [discriminate | reflexivity].
  - destruct (strip_prefix fl p (c :: s)); [discriminate | exact IH].
Qed.

(** The suggestions field is the trimmed text between the leftmost
    case-insensitive occurrence of the word, with the separator after it,
    and the leftmost example marker that follows, or the end of the reply;
    it is [None] exactly when the reply does not hold the word (line 99 and
    line 102). *)
Theorem suggestions_is_text_between reply :
  suggestions (parse_reply reply) =
  match after_first I_S (py "Suggestions") reply with
  | Some post => Some (strip (before_first I_S example_marker (skip_separator post)))
  | None => None
  end.
Proof.
  unfold parse_reply. cbn [suggestions]. unfold suggestions_re.
  destruct (after_first I_S (py "Suggestions") reply) as [post|] eqn:E.
  - rewrite (search_after_first _ _ _ _ _ _ E (suggestions_tail post)).
    cbn [group_1 option_map]. rewrite strip_before_first. reflexivity.
  - rewrite (search_no_literal _ _ _ _ E). reflexivity.
Qed.

(** ** The rating field *)

(** [\s*] gives nothing back when the rest of the pattern, failing after
    the whole run of whitespace, fails inside it too. *)
Lemma greedy_space_strip {R : Type} fl (k : pystr -> option R) n s :
  (forall c t, is_space c = true -> k (lstrip t) = None -> k (c :: t) = None) ->
  repeat_atom fl Space 0 None true k n s = k (lstrip s).
Proof.
  intros Hk. revert n. induction s as [|c s IH]; intros n; cbn [repeat_atom lstrip].
  - reflexivity.
  - cbn [below atom_match andb Nat.leb]. destruct (is_space c) eqn:E.
    + rewrite IH. destruct (k (lstrip s)) eqn:Ek; [reflexivity|].
      apply Hk; assumption.
    + reflexivity.
Qed.

Lemma rating_digits t (g : option pystr) :
  rmatch I_ (Group (Rep Digit 1 (Some 2%nat) true)) t g
    (fun _ g => Some {| group_1 := g |})
  = option_map (fun d => {| group_1 := Some d |}) (take_digits t).
Proof.
  rewrite rmatch_group, rmatch_rep. unfold take_digits.
  destruct t as [|d1 t]; [reflexivity|].
  cbn [repeat_atom below atom_match Nat.ltb Nat.leb andb].
  destruct (is_digit d1) eqn:E1; [|reflexivity].
  destruct t as [|d2 t].
  - cbn [repeat_atom Nat.leb]. reflexivity.
  - cbn [repeat_atom below atom_match Nat.ltb Nat.leb andb].
    destruct (is_digit d2) eqn:E2.
    + destruct t as [|c t]; cbn; [reflexivity|].
      replace (S (S (length t)) - length t)%nat with 2%nat by lia. reflexivity.
    + cbn. replace (S (length t) - length t)%nat with 1%nat by lia. reflexivity.
Qed.

Lemma take_digits_space c t : is_space c = true -> take_digits (c :: t) = None.
Proof.
  intros H. unfold take_digits. destruct (is_digit c) eqn:E; [|reflexivity].
  rewrite (digit_not_space _ E) in H. discriminate H.
Qed.

Lemma take_digits_separator c t :
  (c =? ch ":") || (c =? ch "-") = true -> take_digits (c :: t) = None.
Proof.
  intros H. apply orb_true_iff in H as [H|H]; apply N.eqb_eq in H; subst c; reflexivity.
Qed.

Lemma rating_spaces_digits t (g : option pystr) :
  rmatch I_ (Seq (star Space) (Group (Rep Digit 1 (Some 2%nat) true))) t g
    (fun _ g => Some {| group_1 := g |})
  = option_map (fun d => {| group_1 := Some d |}) (take_digits (lstrip t)).
Proof.
  rewrite rmatch_seq. unfold star. rewrite rmatch_rep.
  rewrite greedy_space_strip.
  - apply rating_digits.
  - intros c u Hc _. rewrite rating_digits, take_digits_space by exact Hc. reflexivity.
Qed.

Lemma rating_separator_digits t :
  rmatch I_
    (Seq (opt (OneOf [ch ":"; ch "-"]))
      (Seq (star Space) (Group (Rep Digit 1 (Some 2%nat) true))))
    t None (fun _ g => Some {| group_1 := g |})
  = option_map (fun d => {| group_1 := Some d |})
      (match t with
       | c :: t' =>
           if (c =? ch ":") || (c =? ch "-") then take_digits (lstrip t')
           else take_digits (lstrip t)
       | [] => None
       end).
Proof.
  rewrite rmatch_seq. unfold opt. rewrite rmatch_rep, opt_unfold.
  destruct t as [|c t'].
  - rewrite rating_spaces_digits. reflexivity.
  - rewrite separator_match by reflexivity.
    destruct ((c =? ch ":") || (c =? ch "-")) eqn:E.
    + rewrite !rating_spaces_digits.
      destruct (take_digits (lstrip t')); [reflexivity|].
      cbn [option_map lstrip].
      destruct (is_space c) eqn:Es.
      * apply orb_true_iff in E as [E|E]; apply N.eqb_eq in E; subst c; discriminate Es.
      * rewrite (take_digits_separator _ _ E). reflexivity.
    + rewrite rating_spaces_digits. reflexivity.
Qed.

Lemma match_at_rating s :
  match_at I_ rating_re s
  = option_map (fun d => {| group_1 := Some d |}) (rating_here s).
Proof.
  unfold match_at, rating_re, rating_here. rewrite rmatch_seq, rmatch_lits.
  destruct (strip_prefix I_ (py "Rating") s) as [post|]; [|reflexivity].
  rewrite rmatch_seq. unfold star at 1. rewrite rmatch_rep.
  rewrite greedy_space_strip.
  - rewrite rating_separator_digits. unfold skip_separator.
    destruct (lstrip post) as [|c t'] eqn:E; [reflexivity|].
    destruct ((c =? ch ":") || (c =? ch "-")); [reflexivity|].
    rewrite (lstrip_nonspace _ _ (lstrip_head _ _ _ E)). reflexivity.
  - intros c t Hc. rewrite !rating_separator_digits.
    replace ((c =? ch ":") || (c =? ch "-")) with false
      by (symmetry; apply orb_false_iff; split; apply N.eqb_neq; intros ->; discriminate Hc).
    cbn [lstrip]. rewrite Hc.
    destruct (lstrip t) as [|x u] eqn:E; [reflexivity|].
    destruct ((x =? ch ":") || (x =? ch "-")) eqn:Ex.
    + intros _. rewrite (take_digits_separator _ _ Ex). reflexivity.
    + rewrite (lstrip_nonspace _ _ (lstrip_head _ _ _ E)). tauto.
Qed.

Lemma first_suffix_map {A B : Type} (f : A -> B) (k : pystr -> option A) s :
  first_suffix (fun t => option_map f (k t)) s = option_map f (first_suffix k s).
Proof.
  induction s as [|c s IH]; cbn [first_suffix].
  - destruct (k []); reflexivity.
  - destruct (k (c :: s)); [reflexivity | exact IH].
Qed.

(** The rating is the number found at the leftmost position of the reply
    where the pattern finds one: the word in any letter case, whitespace, at
    most one colon or dash, whitespace, and the first one or two digits,
    whatever their value (line 98 and line 101). *)
Theorem rating_is_first_number reply :
  rating (parse_reply reply) = first_suffix rating_here reply.
Proof.
  unfold parse_reply. cbn [rating]. rewrite search_first_suffix.
  rewrite (first_suffix_ext _ (fun t => option_map (fun d => {| group_1 := Some d |}) (rating_here t)))
    by (intros t; apply match_at_rating).
  rewrite first_suffix_map.
  destruct (first_suffix rating_here reply); reflexivity.
Qed.

(** * Further properties of the code *)

(** ** Trimming, once more *)

Lemma lstrip_app a b :
  lstrip (a ++ b) = match lstrip a with [] => lstrip b | l => l ++ b end.
Proof.
  induction a as [|c a IH]; cbn [app lstrip].
  - destruct (lstrip b); reflexivity.
  - destruct (is_space c); [exact IH | reflexivity].
Qed.

Lemma rstrip_cons c y :
  rstrip (c :: y) =
  match rstrip y with
  | [] => if is_space c then [] else [c]
  | r => c :: r
  end.
Proof.
  unfold rstrip. cbn [rev]. rewrite lstrip_app.
  destruct (lstrip (rev y)) as [|x l] eqn:E.
  - cbn [rev lstrip]. destruct (is_space c); reflexivity.
  - rewrite rev_app_distr. cbn [rev app].
    destruct (rev l ++ [x]) eqn:E'; [destruct (rev l); discriminate E'|].
    reflexivity.
Qed.

Lemma rstrip_idem s : rstrip (rstrip s) = rstrip s.
Proof. unfold rstrip. rewrite rev_involutive, lstrip_idem. reflexivity. Qed.

Lemma lstrip_strip s : lstrip (strip s) = strip s.
Proof.
  unfold strip. destruct (lstrip s) as [|c y] eqn:E; [reflexivity|].
  pose proof (lstrip_head _ _ _ E) as Hc. rewrite rstrip_cons.
  destruct (rstrip y); cbn [lstrip]; rewrite Hc; cbn [lstrip]; rewrite ?Hc; reflexivity.
Qed.

(** Trimming a trimmed string changes nothing. *)
Lemma strip_idem s : strip (strip s) = strip s.
Proof.
  unfold strip at 1. rewrite lstrip_strip. unfold strip. apply rstrip_idem.
Qed.

(** ** The completion client: every exit of the retry loop *)

Lemma py_range_length a b : length (py_range a b) = Z.to_nat (b - a).
Proof. unfold py_range. rewrite length_map, length_seq. reflexivity. Qed.

Lemma attempt_loop_bounded env w prompt max_retries :
  forall attempts last h,
    exists n, (n <= length attempts)%nat
      /\ snd (attempt_loop env w prompt max_retries attempts last h)
         = repeat (CreateResponse (GROQ_MODEL env) prompt 2048) n ++ h.
Proof.
  induction attempts as [|a rest IH]; intros last h.
  - exists O. split; [apply Nat.le_refl | reflexivity].
  - cbn [attempt_loop].
    destruct (responses_create w h (GROQ_MODEL env) prompt 2048) as [out|e].
    + exists 1%nat. split; [cbn [length]; lia | reflexivity].
    + destruct (a =? max_retries)%Z.
      * exists 1%nat. split; [cbn [length]; lia | reflexivity].
      * destruct (IH (Some e) (CreateResponse (GROQ_MODEL env) prompt 2048 :: h))
          as (n & Hn & Hs).
        exists (S n). split; [cbn [length]; lia|].
        rewrite Hs. rewrite repeat_app_cons. reflexivity.
Qed.

(** Whatever the service does and whatever the ceiling is, the client makes
    no call beyond the ceiling, and every call it makes is the same request:
    the configured model, the prompt, 2048 output tokens (lines 41 to 48). *)
Theorem call_groq_never_exceeds_ceiling (env : environ) (w : world) (prompt : pystr)
    (max_retries : Z) (h : history) :
  exists n, (n <= Z.to_nat max_retries)%nat
    /\ snd (_call_groq env w prompt max_retries h)
       = repeat (CreateResponse (GROQ_MODEL env) prompt 2048) n ++ h.
Proof.
  unfold _call_groq. destruct (client env); cbn [negb].
  - destruct (attempt_loop_bounded env w prompt max_retries
                (py_range 1 (max_retries + 1)) None h) as (n & Hn & Hs).
    rewrite py_range_length in Hn.
    exists n. split; [lia|].
    destruct (attempt_loop env w prompt max_retries (py_range 1 (max_retries + 1)) None h)
      as [[text|last] h']; exact Hs.
  - exists O. split; [lia | reflexivity].
Qed.

Lemma attempt_loop_returns_trimmed env w prompt max_retries :
  forall attempts last h text h',
    attempt_loop env w prompt max_retries attempts last h = (Returned text, h') ->
    strip text = text.
Proof.
  induction attempts as [|a rest IH]; intros last h text h' H; cbn [attempt_loop] in H.
  - discriminate H.
  - destruct (responses_create w h (GROQ_MODEL env) prompt 2048) as [out|e].
    + inversion H; subst. apply strip_idem.
    + destruct (a =? max_retries)%Z; [discriminate H|]. exact (IH _ _ _ _ H).
Qed.

(** What the client returns is trimmed: it has no whitespace at either end
    (line 50). *)
Theorem call_groq_returns_trimmed (env : environ) (w : world) (prompt : pystr)
    (max_retries : Z) (h : history) (text : pystr) (h' : history) :
  _call_groq env w prompt max_retries h = (Ok text, h') ->
  strip text = text /\ lstrip text = text /\ rstrip text = text.
Proof.
  intros H. unfold _call_groq in H. destruct (client env); cbn [negb] in H; [|discriminate H].
  destruct (attempt_loop env w prompt max_retries (py_range 1 (max_retries + 1)) None h)
    as [[t|last] h1] eqn:E; [|discriminate H].
  inversion H; subst.
  pose proof (attempt_loop_returns_trimmed _ _ _ _ _ _ _ _ _ E) as Hs.
  split; [exact Hs | split].
  - rewrite <- Hs. apply lstrip_strip.
  - rewrite <- Hs. unfold strip. apply rstrip_idem.
Qed.

Lemma call_groq_returns_trimmed_witness :
  strip (py "Rating: 8") = py "Rating: 8"
  /\ lstrip (py "Rating: 8") = py "Rating: 8"
  /\ rstrip (py "Rating: 8") = py "Rating: 8".
Proof.
  apply (call_groq_returns_trimmed configured
           (world_with (py "unused") (fun _ => Ok ([9; 32] ++ py "Rating: 8" ++ nl ++ [0x3000])))
           (py "hello") default_max_retries []
           (py "Rating: 8")
           [CreateResponse (py "llama-3.3-70b-versatile") (py "hello") 2048]).
  reflexivity.
Defined.

Lemma attempt_loop_first_success env w prompt max_retries :
  forall (i : nat) (k : Z) (errs : nat -> pystr) last text h,
    (k + Z.of_nat i <= max_retries)%Z ->
    (forall j, (j < i)%nat ->
       responses_create w (repeat (CreateResponse (GROQ_MODEL env) prompt 2048) j ++ h)
         (GROQ_MODEL env) prompt 2048 = Raise (errs j)) ->
    responses_create w (repeat (CreateResponse (GROQ_MODEL env) prompt 2048) i ++ h)
      (GROQ_MODEL env) prompt 2048 = Ok text ->
    attempt_loop env w prompt max_retries (py_range k (max_retries + 1)) last h
    = (Returned (strip text),
       repeat (CreateResponse (GROQ_MODEL env) prompt 2048) (S i) ++ h).
Proof.
  induction i as [|i IH]; intros k errs last text h Hk Herr Hok.
  - rewrite py_range_step by lia. cbn [attempt_loop].
    cbn [repeat app] in Hok. rewrite Hok. reflexivity.
  - rewrite py_range_step by lia. cbn [attempt_loop].
    pose proof (Herr O (Nat.lt_0_succ _)) as H0. cbn [repeat app] in H0. rewrite H0.
    replace (k =? max_retries)%Z with false by (symmetry; apply Z.eqb_neq; lia).
    rewrite (IH (k + 1)%Z (fun j => errs (S j)) (Some (errs O)) text).
    + rewrite repeat_app_cons. reflexivity.
    + lia.
    + intros j Hj. rewrite repeat_app_cons. apply (Herr (S j)). lia.
    + rewrite repeat_app_cons. exact Hok.
Qed.

(** The first attempt that succeeds decides the call: when attempt [i]
    (from 0, below the ceiling) is the first whose request does not raise,
    the client returns its text, trimmed, after exactly [i + 1] calls, and
    the exceptions before it are dropped (lines 41 to 54). *)
Theorem first_success_is_returned (env : environ) (w : world) (prompt : pystr)
    (max_retries : Z) (i : nat) (errs : nat -> pystr) (text : pystr) (h : history) :
  client env = true ->
  (Z.of_nat i < max_retries)%Z ->
  (forall j, (j < i)%nat ->
     responses_create w (repeat (CreateResponse (GROQ_MODEL env) prompt 2048) j ++ h)
       (GROQ_MODEL env) prompt 2048 = Raise (errs j)) ->
  responses_create w (repeat (CreateResponse (GROQ_MODEL env) prompt 2048) i ++ h)
    (GROQ_MODEL env) prompt 2048 = Ok text ->
  _call_groq env w prompt max_retries h
  = (Ok (strip text), repeat (CreateResponse (GROQ_MODEL env) prompt 2048) (S i) ++ h).
Proof.
  intros Hc Hi Herr Hok. unfold _call_groq. rewrite Hc. cbn [negb].
  rewrite (attempt_loop_first_success env w prompt max_retries i 1%Z errs None text h);
    [reflexivity | lia | exact Herr | exact Hok].
Qed.

Lemma first_success_is_returned_witness :
  _call_groq configured (world_with (py "unused") (answers_at 4 (py " fine ")))
    (py "hello") 7 []
  = (Ok (py "fine"),
     repeat (CreateResponse (py "llama-3.3-70b-versatile") (py "hello") 2048) 5).
Proof.
  refine (eq_trans
            (first_success_is_returned configured
               (world_with (py "unused") (answers_at 4 (py " fine ")))
               (py "hello") 7 4 (fun _ => py "rate limited") (py " fine ") [] _ _ _ _) _).
  - reflexivity.
  - lia.
  - intros j Hj.
    destruct j as [|[|[|[|j]]]]; [reflexivity | reflexivity | reflexivity | reflexivity | lia].
  - reflexivity.
  - reflexivity.
Defined.

(** A ceiling that is not positive leaves the loop without an attempt: no
    call is made, and the error names the ceiling and [None] as the last
    exception (lines 40, 41 and 55). *)
Theorem no_attempt_without_positive_ceiling (env : environ) (w : world)
    (prompt : pystr) (max_retries : Z) (h : history) :
  client env = true ->
  (max_retries <= 0)%Z ->
  _call_groq env w prompt max_retries h
  = (Raise (py "Groq AI request failed after " ++ str_int max_retries
            ++ py " attempts: None"), h).
Proof.
  intros Hc Hm. unfold _call_groq. rewrite Hc. cbn [negb].
  rewrite py_range_empty by lia. reflexivity.
Qed.

Lemma no_attempt_without_positive_ceiling_witness :
  _call_groq configured (world_with (py "unused") (fun _ => Ok (py "fine")))
    (py "hello") 0 []
  = (Raise (py "Groq AI request failed after 0 attempts: None"), []).
Proof.
  apply (no_attempt_without_positive_ceiling configured _ (py "hello") 0 []).
  - reflexivity.
  - lia.
Defined.

(** ** The text extractor: which reader a path reaches *)

Lemma rfind_app c a b :
  rfind c (a ++ b)
  = if (0 <=? rfind c b)%Z then (Z.of_nat (length a) + rfind c b)%Z else rfind c a.
Proof.
  induction a as [|x a IH]; cbn [app rfind length].
  - destruct (0 <=? rfind c b)%Z eqn:E; [lia|].
    apply Z.leb_gt in E. destruct (rfind_spec c b); [assumption | lia].
  - rewrite IH. destruct (0 <=? rfind c b)%Z eqn:E.
    + apply Z.leb_le in E.
      replace (0 <=? Z.of_nat (length a) + rfind c b)%Z with true
        by (symmetry; apply Z.leb_le; lia).
      lia.
    + reflexivity.
Qed.

Lemma rfind_absent c s :
  forallb (fun x => negb (x =? c)) s = true -> rfind c s = (-1)%Z.
Proof.
  induction s as [|x s IH]; cbn [forallb rfind]; [reflexivity|].
  intros H. apply andb_true_iff in H as [Hx Hs]. rewrite (IH Hs).
  cbn. apply negb_true_iff in Hx. rewrite Hx. reflexivity.
Qed.

Lemma rfind_bound c s : (rfind c s < Z.of_nat (length s))%Z.
Proof.
  induction s as [|x s IH]; cbn [rfind length]; [lia|].
  destruct (0 <=? rfind c s)%Z; [lia|]. destruct (x =? c); lia.
Qed.

Lemma rfind_app_absent c a b :
  forallb (fun x => negb (x =? c)) b = true -> rfind c (a ++ b) = rfind c a.
Proof. intros H. rewrite rfind_app, (rfind_absent _ _ H). reflexivity. Qed.

Lemma no_sep_absent osp s :
  no_sep osp s = true ->
  forallb (fun x => negb (x =? sep osp)) s = true
  /\ (forall a, altsep osp = Some a -> forallb (fun x => negb (x =? a)) s = true).
Proof.
  unfold no_sep, is_sep. intros H. split.
  - apply forallb_forall. intros x Hx.
    pose proof (proj1 (forallb_forall _ _) H x Hx) as Hn.
    apply negb_true_iff, orb_false_iff in Hn. apply negb_true_iff. tauto.
  - intros a Ha. apply forallb_forall. intros x Hx.
    pose proof (proj1 (forallb_forall _ _) H x Hx) as Hn. rewrite Ha in Hn.
    apply negb_true_iff, orb_false_iff in Hn. apply negb_true_iff. tauto.
Qed.

Lemma sep_index_app osp dir rest :
  no_sep osp rest = true -> sep_index osp (dir ++ rest) = sep_index osp dir.
Proof.
  intros H. destruct (no_sep_absent _ _ H) as [Hs Ha]. unfold sep_index.
  destruct (altsep osp) as [a|].
  - rewrite (rfind_app_absent _ _ _ Hs), (rfind_app_absent _ _ _ (Ha a eq_refl)). reflexivity.
  - apply rfind_app_absent. exact Hs.
Qed.

Lemma sep_index_bound osp dir :
  (-1 <= sep_index osp dir < Z.of_nat (length dir))%Z.
Proof.
  unfold sep_index. pose proof (rfind_bound (sep osp) dir).
  pose proof (rfind_spec (sep osp) dir).
  destruct (altsep osp) as [a|]; [|lia].
  pose proof (rfind_bound a dir). pose proof (rfind_spec a dir). lia.
Qed.

Lemma rfind_last c d : rfind c (d ++ [c]) = Z.of_nat (length d).
Proof.
  rewrite rfind_app. cbn [rfind]. rewrite N.eqb_refl. cbn. lia.
Qed.

Lemma sep_index_component osp dir :
  ends_component osp dir = true ->
  sep_index osp dir = (Z.of_nat (length dir) - 1)%Z.
Proof.
  unfold ends_component. intros H.
  destruct (rev dir) as [|c r] eqn:E.
  - apply (f_equal (@rev char)) in E. rewrite rev_involutive in E. subst dir.
    unfold sep_index. cbn. destruct (altsep osp); reflexivity.
  - apply (f_equal (@rev char)) in E. rewrite rev_involutive in E. cbn [rev] in E.
    subst dir. rewrite length_app. cbn [length].
    pose proof (sep_index_bound osp (rev r ++ [c])) as Hb. rewrite length_app in Hb.
    cbn [length] in Hb.
    unfold is_sep in H. unfold sep_index in *.
    apply orb_true_iff in H as [H|H].
    + apply N.eqb_eq in H. subst c. rewrite rfind_last in *.
      destruct (altsep osp); lia.
    + destruct (altsep osp) as [a|]; [|discriminate H].
      apply N.eqb_eq in H. subst c. rewrite rfind_last in *. lia.
Qed.

Lemma has_name_found (p : pystr) dotIndex :
  forall steps start i,
    (0 <= start <= i)%Z -> (i < dotIndex)%Z ->
    (Z.to_nat (dotIndex - start) <= steps)%nat ->
    (nth (Z.to_nat i) p 0 =? ch ".") = false ->
    has_name_before_dot p dotIndex steps start = true.
Proof.
  induction steps as [|steps IH]; intros start i Hs Hi Hn Hc; [lia|].
  cbn [has_name_before_dot].
  replace (start <? dotIndex)%Z with true by (symmetry; apply Z.ltb_lt; lia).
  destruct (nth (Z.to_nat start) p 0 =? ch ".") eqn:E; [|reflexivity].
  cbn [negb]. apply (IH (start + 1)%Z i); try lia; [|exact Hc].
  assert (start <> i) by (intros ->; rewrite E in Hc; discriminate Hc). lia.
Qed.

Lemma has_name_absent (p : pystr) dotIndex :
  forall steps start,
    (0 <= start)%Z ->
    (forall i, (start <= i < dotIndex)%Z -> nth (Z.to_nat i) p 0 = ch ".") ->
    has_name_before_dot p dotIndex steps start = false.
Proof.
  induction steps as [|steps IH]; intros start Hs Hd; [reflexivity|].
  cbn [has_name_before_dot].
  destruct (start <? dotIndex)%Z eqn:E; [|reflexivity].
  apply Z.ltb_lt in E. rewrite (Hd start) by lia. rewrite N.eqb_refl. cbn [negb].
  apply IH; [lia|]. intros i Hi. apply Hd. lia.
Qed.

Lemma rfind_dot_head ext :
  forallb (fun x => negb (x =? ch ".")) ext = true ->
  rfind (ch ".") (ch "." :: ext) = 0%Z.
Proof. intros H. cbn [rfind]. rewrite (rfind_absent _ _ H). reflexivity. Qed.

(** The path of a named file with an extension splits at the dot of the
    extension. *)
Lemma splitext_name_ext osp dir stem ext :
  name_and_ext osp stem ext = true ->
  forallb (fun x => negb (x =? ch ".")) ext = true ->
  splitext osp (dir ++ stem ++ ch "." :: ext) = (dir ++ stem, ch "." :: ext).
Proof.
  intros Hn Hext. unfold name_and_ext in Hn. apply andb_true_iff in Hn as [Hsep Hstem].
  unfold splitext. fold (sep_index osp (dir ++ stem ++ ch "." :: ext)).
  rewrite (sep_index_app _ _ _ Hsep).
  assert (Hdot : rfind (ch ".") (dir ++ stem ++ ch "." :: ext)
                 = Z.of_nat (length (dir ++ stem))).
  { rewrite app_assoc, rfind_app, (rfind_dot_head _ Hext). cbn. lia. }
  rewrite Hdot.
  pose proof (sep_index_bound osp dir) as Hb.
  apply existsb_exists in Hstem as (x & Hin & Hx).
  destruct (In_nth _ _ 0 Hin) as (j & Hj & Hnth).
  rewrite length_app in *.
  replace (sep_index osp dir <? Z.of_nat (length dir + length stem))%Z with true
    by (symmetry; apply Z.ltb_lt; lia).
  unfold pystr, char in *.
  rewrite (has_name_found _ _ _ _ (Z.of_nat (length dir + j))); try lia.
  - cbn [andb]. rewrite Nat2Z.id, <- length_app, app_assoc.
    rewrite firstn_app, Nat.sub_diag, firstn_all. cbn [firstn]. rewrite app_nil_r.
    rewrite skipn_app, Nat.sub_diag, skipn_all. reflexivity.
  - rewrite Nat2Z.id. rewrite app_nth2 by lia.
    replace (length dir + j - length dir)%nat with j by lia.
    rewrite app_nth1 by exact Hj. rewrite Hnth.
    apply negb_true_iff. exact Hx.
Qed.

Lemma nth_repeat_dots (dir : pystr) n (ext : pystr) i :
  (Z.of_nat (length dir) <= i < Z.of_nat (length dir) + Z.of_nat n)%Z ->
  nth (Z.to_nat i) (dir ++ repeat (ch ".") (S n) ++ ext) 0 = ch ".".
Proof.
  intros Hi. rewrite app_nth2 by lia. rewrite app_nth1 by (rewrite repeat_length; lia).
  apply nth_repeat_lt. lia.
Qed.

(** A last component that starts with its only dots has no extension. *)
Lemma splitext_dot_file osp dir n ext :
  ends_component osp dir = true ->
  no_sep osp (repeat (ch ".") (S n) ++ ext) = true ->
  forallb (fun x => negb (x =? ch ".")) ext = true ->
  snd (splitext osp (dir ++ repeat (ch ".") (S n) ++ ext)) = [].
Proof.
  intros Hdir Hsep Hext. unfold splitext.
  fold (sep_index osp (dir ++ repeat (ch ".") (S n) ++ ext)).
  rewrite (sep_index_app _ _ _ Hsep), (sep_index_component _ _ Hdir).
  assert (Hdot : rfind (ch ".") (dir ++ repeat (ch ".") (S n) ++ ext)
                 = (Z.of_nat (length dir) + Z.of_nat n)%Z).
  { replace (repeat (ch ".") (S n)) with (repeat (ch ".") n ++ [ch "."])
      by (rewrite <- repeat_cons; reflexivity).
    rewrite <- app_assoc. cbn [app].
    rewrite app_assoc, rfind_app, (rfind_dot_head _ Hext).
    rewrite length_app, repeat_length. cbn. lia. }
  rewrite Hdot. rewrite has_name_absent; [rewrite andb_false_r; reflexivity | lia |].
  intros i Hi. apply nth_repeat_dots. lia.
Qed.

Lemma lower_keeps_dots ext :
  forallb (fun x => negb (x =? ch ".")) (py_lower ext) = true ->
  forallb (fun x => negb (x =? ch ".")) ext = true.
Proof.
  induction ext as [|x ext IH]; [reflexivity|].
  unfold py_lower. cbn [map forallb]. intros H.
  apply andb_true_iff in H as [Hx H]. rewrite (IH H), andb_true_r.
  destruct (x =? ch ".") eqn:E; [|reflexivity].
  apply N.eqb_eq in E. subst x. exact Hx.
Qed.

Lemma named_file_reads (osp : os_path) (w : world) (dir stem ext : pystr) (h : history) :
  name_and_ext osp stem ext = true ->
  (py_lower ext = py "pdf" ->
   extract_resume_text osp w (dir ++ stem ++ ch "." :: ext) h
   = (extract_text w h (dir ++ stem ++ ch "." :: ext),
      ExtractPdf (dir ++ stem ++ ch "." :: ext) :: h))
  /\ (py_lower ext = py "docx" ->
      extract_resume_text osp w (dir ++ stem ++ ch "." :: ext) h
      = (match document_paragraphs w h (dir ++ stem ++ ch "." :: ext) with
         | Ok paragraphs => Ok (str_join nl paragraphs)
         | Raise e => Raise e
         end,
         OpenDocx (dir ++ stem ++ ch "." :: ext) :: h)).
Proof.
  intros Hn.
  assert (Hsplit : forall l, py_lower ext = l ->
            forallb (fun x => negb (x =? ch ".")) l = true ->
            py_lower (snd (splitext osp (dir ++ stem ++ ch "." :: ext))) = ch "." :: l).
  { intros l Hl Hd. rewrite splitext_name_ext;
      [| exact Hn | apply lower_keeps_dots; rewrite Hl; exact Hd].
    cbn [snd]. change (py_lower (ch "." :: ext)) with (ch "." :: py_lower ext).
    rewrite Hl. reflexivity. }
  split; intros Hext; unfold extract_resume_text;
    rewrite (Hsplit _ Hext eq_refl).
  - case_decide as A; [reflexivity|]. exfalso. apply A. reflexivity.
  - case_decide as A; [discriminate A|].
    case_decide as B; [|exfalso; apply B; reflexivity].
    unfold bind, call, ret.
    destruct (document_paragraphs w h (dir ++ stem ++ ch "." :: ext)); reflexivity.
Qed.


(** A named file with the extension pdf or docx, in any letter case and in
    any directory, reaches the reader of its type: the extractor returns
    what [extract_text] returns for a PDF, and the paragraphs joined by
    newlines for a DOCX; an exception of the reader is passed on; the reader
    is called once (lines 58 to 63). *)
Theorem named_file_reaches_its_reader (osp : os_path) (w : world)
    (dir stem ext : pystr) (h : history) :
  name_and_ext osp stem ext = true ->
  (py_lower ext = py "pdf" ->
   extract_resume_text osp w (dir ++ stem ++ ch "." :: ext) h
   = (extract_text w h (dir ++ stem ++ ch "." :: ext),
      ExtractPdf (dir ++ stem ++ ch "." :: ext) :: h))
  /\ (py_lower ext = py "docx" ->
      extract_resume_text osp w (dir ++ stem ++ ch "." :: ext) h
      = (match document_paragraphs w h (dir ++ stem ++ ch "." :: ext) with
         | Ok paragraphs => Ok (str_join nl paragraphs)
         | Raise e => Raise e
         end,
         OpenDocx (dir ++ stem ++ ch "." :: ext) :: h)).
Proof.
  intros Hn.
  destruct (named_file_reads osp w dir stem ext h Hn) as [Hpdf Hdocx].
  split; [exact Hpdf | exact Hdocx].
Qed.

Lemma named_file_reaches_its_reader_witness :
  extract_resume_text posixpath (world_with (py "Jane Doe") always_failing)
    (py "temp/" ++ py "Resume.2024" ++ ch "." :: py "PDF") []
  = (Ok (py "Jane Doe"), [ExtractPdf (py "temp/Resume.2024.PDF")])
  /\ extract_resume_text posixpath (world_with (py "Jane Doe") always_failing)
       (py "temp/" ++ py "cv" ++ ch "." :: py "Docx") []
     = (Ok (py "Jane Doe"), [OpenDocx (py "temp/cv.Docx")]).
Proof.
  split.
  - apply (proj1 (named_file_reaches_its_reader posixpath
                    (world_with (py "Jane Doe") always_failing)
                    (py "temp/") (py "Resume.2024") (py "PDF") [] eq_refl)).
    reflexivity.
  - apply (proj2 (named_file_reaches_its_reader posixpath
                    (world_with (py "Jane Doe") always_failing)
                    (py "temp/") (py "cv") (py "Docx") [] eq_refl)).
    reflexivity.
Defined.

(** A file whose name is dots followed by a would-be extension, such as
    .pdf or ..docx, has no extension for the extractor: it gets the empty
    string and no reader is called (lines 58 and 65). *)
Theorem dot_file_is_not_read (osp : os_path) (w : world) (dir : pystr) (n : nat)
    (ext : pystr) (h : history) :
  ends_component osp dir = true ->
  no_sep osp (repeat (ch ".") (S n) ++ ext) = true ->
  forallb (fun x => negb (x =? ch ".")) ext = true ->
  extract_resume_text osp w (dir ++ repeat (ch ".") (S n) ++ ext) h = (Ok [], h).
Proof.
  intros Hd Hs He. unfold extract_resume_text.
  rewrite (splitext_dot_file _ _ _ _ Hd Hs He).
  destruct (decide (py_lower [] = py ".pdf")) as [A|_]; [discriminate A|].
  destruct (decide (py_lower [] = py ".docx")) as [A|_]; [discriminate A|].
  reflexivity.
Qed.

Lemma dot_file_is_not_read_witness :
  extract_resume_text posixpath (world_with (py "Jane Doe") always_failing)
    (py "temp/" ++ repeat (ch ".") 1 ++ py "pdf") [] = (Ok [], []).
Proof.
  apply (dot_file_is_not_read posixpath _ (py "temp/") 0 (py "pdf") []); reflexivity.
Defined.

(** ** POST /upload: the paths through the handler *)

Lemma upload_text_steps (osp : os_path) (w : world) (file : FileStorage) h r h1 :
  file_save w h (path_join osp (py "temp") (filename file)) = Ok tt ->
  extract_resume_text osp w (path_join osp (py "temp") (filename file))
    (SaveFile (path_join osp (py "temp") (filename file)) :: h) = (r, h1) ->
  upload_text osp w file h
  = match r with
    | Ok text =>
        match os_remove w h1 (path_join osp (py "temp") (filename file)) with
        | Ok _ => (Ok text, RemoveFile (path_join osp (py "temp") (filename file)) :: h1)
        | Raise e => (Raise e, RemoveFile (path_join osp (py "temp") (filename file)) :: h1)
        end
    | Raise e => (Raise e, h1)
    end.
Proof.
  intros Hs He. unfold upload_text, bind, call, ret. rewrite Hs, He.
  destruct r as [text|e]; [|reflexivity].
  destruct (os_remove w h1 (path_join osp (py "temp") (filename file))); reflexivity.
Qed.

Lemma upload_text_raises (env : environ) (osp : os_path) (w : world)
    (files : gmap pystr FileStorage) file h e h1 :
  files !! py "resume" = Some file ->
  upload_text osp w file h = (Raise e, h1) ->
  upload_resume env osp w files h
  = ({| body := [("error"%string, JStr e)]; status := 500 |}, h1).
Proof.
  intros Hf Ht. unfold upload_resume. rewrite Hf.
  unfold upload_body, bind. rewrite Ht. reflexivity.
Qed.

Lemma extract_unread_extension osp w p h :
  py_lower (snd (splitext osp p)) <> py ".pdf" ->
  py_lower (snd (splitext osp p)) <> py ".docx" ->
  extract_resume_text osp w p h = (Ok [], h).
Proof.
  intros H1 H2. unfold extract_resume_text.
  destruct (decide (py_lower (snd (splitext osp p)) = py ".pdf")) as [A|_]; [contradiction|].
  destruct (decide (py_lower (snd (splitext osp p)) = py ".docx")) as [A|_]; [contradiction|].
  reflexivity.
Qed.

Lemma lowered_extension osp p e :
  py_lower (snd (splitext osp p)) = ch "." :: e ->
  option_map py_lower (after_last_dot p) = Some e.
Proof.
  intros H. destruct (splitext_ext osp p) as [E | (x & Hx & E)]; rewrite E in H.
  - discriminate H.
  - rewrite Hx. cbn [option_map]. f_equal.
    apply (f_equal (@tl char)) in H. exact H.
Qed.

Lemma after_last_dot_app a b :
  after_last_dot (a ++ b)
  = match after_last_dot b with
    | Some e => Some e
    | None => option_map (fun e => e ++ b) (after_last_dot a)
    end.
Proof.
  induction a as [|c a IH]; cbn [app after_last_dot].
  - destruct (after_last_dot b); reflexivity.
  - rewrite IH. destruct (after_last_dot b) as [e|]; [reflexivity|].
    destruct (after_last_dot a) as [e|]; cbn [option_map]; [reflexivity|].
    destruct (c =? ch "."); reflexivity.
Qed.

(** Under [temp] the extension of the upload's name is that of its path. *)
Lemma posix_join_extension f :
  option_map py_lower (after_last_dot (posix_join (py "temp") f))
  = option_map py_lower (after_last_dot f).
Proof.
  destruct f as [|c f].
  - reflexivity.
  - unfold posix_join. destruct (c =? ch "/"); [reflexivity|].
    change (rev (py "temp")) with (ch "p" :: py "met"). cbn iota.
    change (ch "p" =? ch "/") with false. cbn iota.
    change (py "temp" ++ [ch "/"] ++ c :: f) with (py "temp/" ++ c :: f).
    rewrite after_last_dot_app.
    destruct (after_last_dot (c :: f)) as [e|] eqn:E; [reflexivity|].
    reflexivity.
Qed.

(** An upload whose name has another extension than pdf and docx, or none,
    is saved and removed, never read, and answered 400; no completion call
    is made (lines 76 to 82, with line 65). *)
Theorem upload_of_other_type (env : environ) (w : world)
    (files : gmap pystr FileStorage) (file : FileStorage) (h : history) :
  files !! py "resume" = Some file ->
  option_map py_lower (after_last_dot (filename file)) <> Some (py "pdf") ->
  option_map py_lower (after_last_dot (filename file)) <> Some (py "docx") ->
  file_save w h (posix_join (py "temp") (filename file)) = Ok tt ->
  os_remove w (SaveFile (posix_join (py "temp") (filename file)) :: h)
    (posix_join (py "temp") (filename file)) = Ok tt ->
  upload_resume env posixpath w files h
  = ({| body := [("error"%string, JStr (py "Could not extract text from resume."))];
        status := 400 |},
     [RemoveFile (posix_join (py "temp") (filename file));
      SaveFile (posix_join (py "temp") (filename file))] ++ h).
Proof.
  intros Hf Hpdf Hdocx Hs Hr.
  assert (He : extract_resume_text posixpath w (posix_join (py "temp") (filename file))
                 (SaveFile (posix_join (py "temp") (filename file)) :: h)
               = (Ok [], SaveFile (posix_join (py "temp") (filename file)) :: h)).
  { apply extract_unread_extension; intros A.
    - apply Hpdf. rewrite <- posix_join_extension.
      exact (lowered_extension posixpath _ (py "pdf") A).
    - apply Hdocx. rewrite <- posix_join_extension.
      exact (lowered_extension posixpath _ (py "docx") A). }
  pose proof (upload_text_steps posixpath w file h _ _ Hs He) as Ht.
  cbn [path_join posixpath] in Ht. rewrite Hr in Ht.
  unfold upload_resume. rewrite Hf. unfold upload_body, bind. rewrite Ht. reflexivity.
Qed.

Lemma upload_of_other_type_witness :
  upload_resume configured posixpath (world_with (py "Jane Doe") always_failing)
    (one_upload (py "cv.final.txt")) []
  = ({| body := [("error"%string, JStr (py "Could not extract text from resume."))];
        status := 400 |},
     [RemoveFile (py "temp/cv.final.txt"); SaveFile (py "temp/cv.final.txt")]).
Proof.
  apply (upload_of_other_type configured _ (one_upload (py "cv.final.txt"))
           {| filename := py "cv.final.txt" |} []);
    try reflexivity; vm_compute; discriminate.
Defined.

(** When the PDF reader raises, the handler answers 500 with the reader's
    text and stops there: the saved file is not removed, and no completion
    call is made (lines 77 to 80 and 107 to 108). *)
Theorem extraction_error_leaves_temp_file (env : environ) (osp : os_path) (w : world)
    (files : gmap pystr FileStorage) (file : FileStorage) (dir stem ext e : pystr)
    (h : history) :
  files !! py "resume" = Some file ->
  path_join osp (py "temp") (filename file) = dir ++ stem ++ ch "." :: ext ->
  name_and_ext osp stem ext = true ->
  py_lower ext = py "pdf" ->
  file_save w h (dir ++ stem ++ ch "." :: ext) = Ok tt ->
  extract_text w (SaveFile (dir ++ stem ++ ch "." :: ext) :: h)
    (dir ++ stem ++ ch "." :: ext) = Raise e ->
  upload_resume env osp w files h
  = ({| body := [("error"%string, JStr e)]; status := 500 |},
     [ExtractPdf (dir ++ stem ++ ch "." :: ext);
      SaveFile (dir ++ stem ++ ch "." :: ext)] ++ h).
Proof.
  intros Hf Hp Hn Hext Hs He.
  apply (upload_text_raises env osp w files file h e _ Hf).
  rewrite (upload_text_steps osp w file h (Raise e)
             ([ExtractPdf (dir ++ stem ++ ch "." :: ext);
               SaveFile (dir ++ stem ++ ch "." :: ext)] ++ h)).
  - reflexivity.
  - rewrite Hp. exact Hs.
  - rewrite Hp.
    destruct (named_file_reads osp w dir stem ext
                (SaveFile (dir ++ stem ++ ch "." :: ext) :: h) Hn) as [Hpdf _].
    rewrite (Hpdf Hext), He. reflexivity.
Qed.

Lemma extraction_error_leaves_temp_file_witness :
  upload_resume configured posixpath unreadable_pdf (one_upload (py "scan.pdf")) []
  = ({| body := [("error"%string, JStr (py "No /Root object! - Is this really a PDF?"))];
        status := 500 |},
     [ExtractPdf (py "temp/scan.pdf"); SaveFile (py "temp/scan.pdf")]).
Proof.
  apply (extraction_error_leaves_temp_file configured posixpath unreadable_pdf
           (one_upload (py "scan.pdf")) {| filename := py "scan.pdf" |}
           (py "temp/") (py "scan") (py "pdf")
           (py "No /Root object! - Is this really a PDF?") []);
    reflexivity.
Defined.

Lemma strip_blank s : forallb is_space s = true -> strip s = [].
Proof.
  intros H. unfold strip.
  replace (lstrip s) with (@nil char); [reflexivity|].
  symmetry. induction s as [|c s IH]; [reflexivity|].
  cbn [forallb] in H. apply andb_true_iff in H as [Hc Hs].
  cbn [lstrip]. rewrite Hc. exact (IH Hs).
Qed.

Lemma join_of_blanks paragraphs :
  forallb (forallb is_space) paragraphs = true ->
  forallb is_space (str_join nl paragraphs) = true.
Proof.
  induction paragraphs as [|x rest IH]; [reflexivity|].
  cbn [forallb]. intros H. apply andb_true_iff in H as [Hx Hrest].
  destruct rest as [|y rest]; [exact Hx|].
  change (str_join nl (x :: y :: rest)) with (x ++ nl ++ str_join nl (y :: rest)).
  rewrite !forallb_app, Hx, (IH Hrest). reflexivity.
Qed.

(** A DOCX whose paragraphs are all empty or whitespace, or that has no
    paragraph, is answered 400: the joined text is blank; the file is
    removed and no completion call is made (lines 62 to 63 and 80 to 82). *)
Theorem upload_of_blank_docx (env : environ) (osp : os_path) (w : world)
    (files : gmap pystr FileStorage) (file : FileStorage) (dir stem ext : pystr)
    (paragraphs : list pystr) (h : history) :
  files !! py "resume" = Some file ->
  path_join osp (py "temp") (filename file) = dir ++ stem ++ ch "." :: ext ->
  name_and_ext osp stem ext = true ->
  py_lower ext = py "docx" ->
  file_save w h (dir ++ stem ++ ch "." :: ext) = Ok tt ->
  document_paragraphs w (SaveFile (dir ++ stem ++ ch "." :: ext) :: h)
    (dir ++ stem ++ ch "." :: ext) = Ok paragraphs ->
  forallb (forallb is_space) paragraphs = true ->
  os_remove w ([OpenDocx (dir ++ stem ++ ch "." :: ext);
                SaveFile (dir ++ stem ++ ch "." :: ext)] ++ h)
    (dir ++ stem ++ ch "." :: ext) = Ok tt ->
  upload_resume env osp w files h
  = ({| body := [("error"%string, JStr (py "Could not extract text from resume."))];
        status := 400 |},
     [RemoveFile (dir ++ stem ++ ch "." :: ext);
      OpenDocx (dir ++ stem ++ ch "." :: ext);
      SaveFile (dir ++ stem ++ ch "." :: ext)] ++ h).
Proof.
  intros Hf Hp Hn Hext Hs Hd Hb Hr.
  assert (Ht : upload_text osp w file h
               = (Ok (str_join nl paragraphs),
                  [RemoveFile (dir ++ stem ++ ch "." :: ext);
                   OpenDocx (dir ++ stem ++ ch "." :: ext);
                   SaveFile (dir ++ stem ++ ch "." :: ext)] ++ h)).
  { rewrite (upload_text_steps osp w file h (Ok (str_join nl paragraphs))
               ([OpenDocx (dir ++ stem ++ ch "." :: ext);
                 SaveFile (dir ++ stem ++ ch "." :: ext)] ++ h)).
    - rewrite Hp, Hr. reflexivity.
    - rewrite Hp. exact Hs.
    - rewrite Hp.
      destruct (named_file_reads osp w dir stem ext
                  (SaveFile (dir ++ stem ++ ch "." :: ext) :: h) Hn) as [_ Hdocx].
      rewrite (Hdocx Hext), Hd. reflexivity. }
  unfold upload_resume. rewrite Hf. unfold upload_body, bind. rewrite Ht.
  rewrite (strip_blank _ (join_of_blanks _ Hb)). reflexivity.
Qed.

Lemma upload_of_blank_docx_witness :
  upload_resume configured posixpath (world_with (py "  ") always_failing)
    (one_upload (py "empty.docx")) []
  = ({| body := [("error"%string, JStr (py "Could not extract text from resume."))];
        status := 400 |},
     [RemoveFile (py "temp/empty.docx"); OpenDocx (py "temp/empty.docx");
      SaveFile (py "temp/empty.docx")]).
Proof.
  apply (upload_of_blank_docx configured posixpath (world_with (py "  ") always_failing)
           (one_upload (py "empty.docx")) {| filename := py "empty.docx" |}
           (py "temp/") (py "empty") (py "docx") [py "  "] []);
    reflexivity.
Defined.

(** Without a credential both endpoints answer 500 with the configuration
    error once they reach the completion client: /analyze at once, /upload
    after the file was saved, read and removed; neither calls the service
    (lines 38 to 39, 107 to 108 and 124 to 125). *)
Theorem missing_credential_is_a_500 (env : environ) (osp : os_path) (w : world) :
  client env = false ->
  (forall (data : gmap pystr json) v h,
     data !! py "resume_text" = Some v -> truthy v = true ->
     analyze_resume env w (JsonObject data) h
     = (Responds {| body := [("error"%string,
                              JStr (py "GROQ_API_KEY is not configured on the server."))];
                    status := 500 |}, h))
  /\ (forall (files : gmap pystr FileStorage) file h text h1,
        files !! py "resume" = Some file ->
        upload_text osp w file h = (Ok text, h1) ->
        strip text <> [] ->
        upload_resume env osp w files h
        = ({| body := [("error"%string,
                        JStr (py "GROQ_API_KEY is not configured on the server."))];
              status := 500 |}, h1)).
Proof.
  intros Hc. split.
  - intros data v h Hv Ht. unfold analyze_resume. rewrite Hv. cbv zeta.
    rewrite Ht. cbn [negb]. unfold _call_groq. rewrite Hc. reflexivity.
  - intros files file h text h1 Hf Ht Hs. unfold upload_resume. rewrite Hf.
    unfold upload_body, bind. rewrite Ht.
    destruct (strip text) as [|c t] eqn:E; [congruence|].
    cbn [truthy negb]. unfold _call_groq. rewrite Hc. reflexivity.
Qed.

Lemma missing_credential_is_a_500_witness :
  analyze_resume unconfigured (world_with (py "Jane Doe") (fun _ => Ok (py "fine")))
    (JsonObject {[ py "resume_text" := JStr (py "Jane Doe") ]}) []
  = (Responds {| body := [("error"%string,
                           JStr (py "GROQ_API_KEY is not configured on the server."))];
                 status := 500 |}, [])
  /\ upload_resume unconfigured posixpath
       (world_with (py "Jane Doe") (fun _ => Ok (py "fine")))
       (one_upload (py "cv.pdf")) []
     = ({| body := [("error"%string,
                     JStr (py "GROQ_API_KEY is not configured on the server."))];
           status := 500 |}, saved_and_read (py "temp/cv.pdf")).
Proof.
  split.
  - apply (proj1 (missing_credential_is_a_500 unconfigured posixpath _ eq_refl)
             _ (JStr (py "Jane Doe"))); reflexivity.
  - apply (proj2 (missing_credential_is_a_500 unconfigured posixpath _ eq_refl)
             _ {| filename := py "cv.pdf" |} [] (py "Jane Doe"));
      try reflexivity. vm_compute. discriminate.
Defined.

(** ** The parsed fields *)

Lemma first_suffix_some {R : Type} (k : pystr -> option R) s r :
  first_suffix k s = Some r -> exists t, k t = Some r.
Proof.
  induction s as [|c s IH]; cbn [first_suffix].
  - destruct (k []) eqn:E; [|discriminate]. intros H. exists []. congruence.
  - destruct (k (c :: s)) eqn:E; [intros H; exists (c :: s); congruence | exact IH].
Qed.

Lemma take_digits_shape t d :
  take_digits t = Some d ->
  ((length d = 1)%nat \/ (length d = 2)%nat) /\ forallb is_digit d = true.
Proof.
  unfold take_digits. destruct t as [|d1 t]; [discriminate|].
  destruct (is_digit d1) eqn:E1; [|discriminate].
  destruct t as [|d2 t].
  - intros H. inversion H; subst. cbn [length forallb]. rewrite E1. auto.
  - destruct (is_digit d2) eqn:E2; intros H; inversion H; subst;
      cbn [length forallb]; rewrite ?E1, ?E2; auto.
Qed.

Lemma rating_field_digits reply r :
  rating (parse_reply reply) = Some r -> exists t, take_digits t = Some r.
Proof.
  unfold parse_reply. cbn [rating]. rewrite search_first_suffix.
  rewrite (first_suffix_ext _
             (fun t => option_map (fun d => {| group_1 := Some d |}) (rating_here t)))
    by (intros t; apply match_at_rating).
  rewrite first_suffix_map.
  destruct (first_suffix rating_here reply) as [d|] eqn:E; [|discriminate].
  cbn [option_map group_1]. intros H. inversion H; subst.
  destruct (first_suffix_some _ _ _ E) as (t & Ht).
  unfold rating_here in Ht.
  destruct (strip_prefix I_ (py "Rating") t) as [post|]; [|discriminate].
  exists (skip_separator post). exact Ht.
Qed.

Lemma trimmed_field (m : option MatchObject) s :
  match m with Some m => option_map strip (group_1 m) | None => None end = Some s ->
  strip s = s.
Proof.
  destruct m as [[[g|]]|]; cbn [group_1 option_map]; try discriminate.
  intros H. inversion H; subst. apply strip_idem.
Qed.

Lemma parsed_fields_shape reply :
  (forall r, rating (parse_reply reply) = Some r ->
     ((length r = 1)%nat \/ (length r = 2)%nat) /\ forallb is_digit r = true)
  /\ (forall s, suggestions (parse_reply reply) = Some s -> strip s = s)
  /\ (forall e, example (parse_reply reply) = Some e -> strip e = e).
Proof.
  split; [|split].
  - intros r H. destruct (rating_field_digits _ _ H) as (t & Ht).
    exact (take_digits_shape _ _ Ht).
  - intros s H. exact (trimmed_field _ _ H).
  - intros e H. exact (trimmed_field _ _ H).
Qed.


(** Whatever the reply, a rating that is found is one or two decimal
    digits, and a suggestions or example field that is found has no
    whitespace at either end (lines 98 to 103). *)
Theorem parsed_fields_are_clean reply :
  (forall r, rating (parse_reply reply) = Some r ->
     ((length r = 1)%nat \/ (length r = 2)%nat) /\ forallb is_digit r = true)
  /\ (forall s, suggestions (parse_reply reply) = Some s -> strip s = s)
  /\ (forall e, example (parse_reply reply) = Some e -> strip e = e).
Proof.
  destruct (parsed_fields_shape reply) as (Hr & Hs & He).
  split; [exact Hr | split; [exact Hs | exact He]].
Qed.

Lemma strip_prefix_app_some fl p a b r :
  strip_prefix fl p a = Some r -> strip_prefix fl p (a ++ b) = Some (r ++ b).
Proof.
  revert a. induction p as [|c p IH]; intros a H; cbn [strip_prefix] in *.
  - inversion H; subst. reflexivity.
  - destruct a as [|x a]; [discriminate H|]. cbn [app].
    destruct (lit_match fl c x); [exact (IH _ H) | discriminate H].
Qed.

Lemma strip_prefix_app_none fl p a b :
  strip_prefix fl p (a ++ b) = None -> strip_prefix fl p a = None.
Proof.
  intros H. destruct (strip_prefix fl p a) as [r|] eqn:E; [|reflexivity].
  rewrite (strip_prefix_app_some _ _ _ b _ E) in H. discriminate H.
Qed.

Lemma lazy_group_prefix t : exists r, t = lazy_group t ++ r.
Proof.
  induction t as [|c t IH]; cbn [lazy_group].
  - exists []. destruct (strip_prefix I_S example_marker []); reflexivity.
  - destruct (strip_prefix I_S example_marker (c :: t)); [exists (c :: t); reflexivity|].
    destruct (at_end (c :: t)); [exists (c :: t); reflexivity|].
    destruct IH as (r & Hr). exists r. cbn [app]. rewrite <- Hr. reflexivity.
Qed.

Lemma after_first_nil_marker : after_first I_S example_marker [] = None.
Proof. reflexivity. Qed.

(** The lazy group stops before the first marker: it holds none. *)
Lemma after_first_lazy_group t : after_first I_S example_marker (lazy_group t) = None.
Proof.
  induction t as [|c t IH]; cbn [lazy_group].
  - destruct (strip_prefix I_S example_marker []); reflexivity.
  - destruct (strip_prefix I_S example_marker (c :: t)) eqn:E; [reflexivity|].
    destruct (at_end (c :: t)); [reflexivity|].
    cbn [after_first]. rewrite IH.
    destruct (lazy_group_prefix t) as (r & Hr).
    rewrite Hr in E. change (c :: lazy_group t ++ r) with ((c :: lazy_group t) ++ r) in E.
    rewrite (strip_prefix_app_none _ _ _ _ E). reflexivity.
Qed.

Lemma after_first_drop_prefix fl p l y :
  after_first fl p (l ++ y) = None -> after_first fl p y = None.
Proof.
  induction l as [|c l IH]; cbn [app after_first]; [auto|].
  destruct (strip_prefix fl p (c :: l ++ y)); [discriminate | exact IH].
Qed.

Lemma after_first_none_here fl p s :
  after_first fl p s = None -> strip_prefix fl p s = None.
Proof.
  destruct s; cbn [after_first]; destruct (strip_prefix fl p _);
    intros H; [discriminate H | reflexivity | discriminate H | reflexivity].
Qed.

Lemma after_first_drop_suffix fl p m r :
  after_first fl p (m ++ r) = None -> after_first fl p m = None.
Proof.
  induction m as [|c m IH]; intros H.
  - pose proof (after_first_none_here _ _ _ H) as Hn.
    cbn [after_first]. rewrite (strip_prefix_app_none _ _ _ _ Hn). reflexivity.
  - pose proof (after_first_none_here _ _ _ H) as Hn.
    cbn [app after_first] in *.
    rewrite (strip_prefix_app_none _ _ (c :: m) r Hn).
    rewrite Hn in H. exact (IH H).
Qed.

Lemma lstrip_suffix s : exists l, s = l ++ lstrip s.
Proof.
  induction s as [|c s IH]; [exists []; reflexivity|].
  cbn [lstrip]. destruct (is_space c); [|exists []; reflexivity].
  destruct IH as (l & Hl). exists (c :: l). cbn [app]. rewrite <- Hl. reflexivity.
Qed.

Lemma rstrip_prefix y : exists r, y = rstrip y ++ r.
Proof.
  induction y as [|c y IH]; [exists []; reflexivity|].
  rewrite rstrip_cons. destruct IH as (r & Hr).
  destruct (rstrip y) as [|x t] eqn:E.
  - destruct (is_space c); [exists (c :: y) | exists y]; reflexivity.
  - exists r. cbn [app] in *. rewrite <- Hr. reflexivity.
Qed.

Lemma after_first_strip fl p x :
  after_first fl p x = None -> after_first fl p (strip x) = None.
Proof.
  intros H. unfold strip.
  destruct (lstrip_suffix x) as (l & Hl).
  destruct (rstrip_prefix (lstrip x)) as (r & Hr).
  rewrite Hl in H. apply after_first_drop_prefix in H.
  rewrite Hr in H. exact (after_first_drop_suffix _ _ _ _ H).
Qed.

Lemma suggestions_field_group reply s :
  suggestions (parse_reply reply) = Some s -> exists t, s = strip (lazy_group t).
Proof.
  unfold parse_reply. cbn [suggestions]. unfold suggestions_re.
  destruct (after_first I_S (py "Suggestions") reply) as [post|] eqn:E.
  - rewrite (search_after_first _ _ _ _ _ _ E (suggestions_tail post)).
    cbn [group_1 option_map]. intros H. inversion H; subst.
    exists (skip_separator post). reflexivity.
  - rewrite (search_no_literal _ _ _ _ E). discriminate.
Qed.

(** The suggestions field never holds the example marker, in any letter
    case: the example section is not part of the suggestions (line 99). *)
Theorem suggestions_exclude_the_example (reply s : pystr) :
  suggestions (parse_reply reply) = Some s ->
  after_first I_S example_marker s = None.
Proof.
  intros H. destruct (suggestions_field_group _ _ H) as (t & ->).
  apply after_first_strip, after_first_lazy_group.
Qed.

Lemma suggestions_exclude_the_example_witness :
  after_first I_S example_marker (py "- improve X") = None.
Proof.
  apply (suggestions_exclude_the_example well_formed_reply (py "- improve X")).
  vm_compute. reflexivity.
Defined.

(** ** The handlers: every answer and every trace *)

Lemma call_groq_shape env w prompt max_retries h r h' :
  _call_groq env w prompt max_retries h = (r, h') ->
  exists n, (n <= Z.to_nat max_retries)%nat
    /\ h' = repeat (CreateResponse (GROQ_MODEL env) prompt 2048) n ++ h
    /\ match r with Ok text => strip text = text | Raise _ => True end.
Proof.
  unfold _call_groq. destruct (client env); cbn [negb].
  - destruct (attempt_loop_bounded env w prompt max_retries
                (py_range 1 (max_retries + 1)) None h) as (n & Hn & Hs).
    rewrite py_range_length in Hn.
    destruct (attempt_loop env w prompt max_retries (py_range 1 (max_retries + 1)) None h)
      as [[text|last] h1] eqn:E; intros H; inversion H; subst;
      exists n; (split; [lia | split; [exact Hs|]]).
    + exact (attempt_loop_returns_trimmed _ _ _ _ _ _ _ _ _ E).
    + exact I.
  - intros H. inversion H; subst. exists O. split; [lia | split; [reflexivity | exact I]].
Qed.

Lemma analysis_response_cases reply :
  strip reply = reply ->
  analysis_response reply = incomplete_analysis reply
  \/ upload_success (analysis_response reply).
Proof.
  intros Hraw.
  destruct (parsed_fields_shape reply) as (Hr & Hs & He).
  unfold analysis_response. cbv zeta.
  destruct (rating (parse_reply reply)) as [[|c r]|] eqn:Er;
    try (left; reflexivity).
  destruct (suggestions (parse_reply reply)) as [[|c2 sg]|] eqn:Es;
    try (left; reflexivity).
  destruct (example (parse_reply reply)) as [[|c3 ex]|] eqn:Ee;
    try (left; reflexivity).
  right. exists (c :: r), (c2 :: sg), (c3 :: ex), reply.
  destruct (Hr _ eq_refl) as [Hl Hd].
  repeat split; try assumption; try discriminate; auto.
Qed.

(** /upload has five kinds of answer and no other: the success with its
    four clean fields, 400 with one error field, 500 with one error field,
    and the incomplete-analysis answer; there is no partial success
    (lines 70 to 108). *)
Theorem upload_answers (env : environ) (osp : os_path) (w : world)
    (files : gmap pystr FileStorage) (h : history) :
  upload_success (fst (upload_resume env osp w files h))
  \/ error_answer 400 (fst (upload_resume env osp w files h))
  \/ error_answer 500 (fst (upload_resume env osp w files h))
  \/ exists raw, strip raw = raw
       /\ fst (upload_resume env osp w files h) = incomplete_analysis raw.
Proof.
  unfold upload_resume. destruct (files !! py "resume") as [file|].
  - unfold upload_body, bind.
    destruct (upload_text osp w file h) as [[text|e] h1].
    + destruct (strip text) as [|c t]; cbn [truthy negb].
      * right. left. eexists. reflexivity.
      * destruct (_call_groq env w (upload_prompt text) default_max_retries h1)
          as [[reply|e] h2] eqn:E.
        -- destruct (call_groq_shape _ _ _ _ _ _ _ E) as (n & _ & _ & Ht).
           unfold ret. cbn [fst].
           destruct (analysis_response_cases reply Ht) as [Hi|Hok].
           ++ right. right. right. exists reply. split; assumption.
           ++ left. exact Hok.
        -- right. right. left. eexists. reflexivity.
    + right. right. left. eexists. reflexivity.
  - right. left. eexists. reflexivity.
Qed.


Lemma extract_cases osp w p h :
  (extract_resume_text osp w p h = (Ok [], h))
  \/ (exists r, extract_resume_text osp w p h = (r, ExtractPdf p :: h))
  \/ (exists r, extract_resume_text osp w p h = (r, OpenDocx p :: h)).
Proof.
  unfold extract_resume_text.
  case_decide as A.
  - right. left. eexists. reflexivity.
  - case_decide as B.
    + right. right. unfold bind, call, ret.
      destruct (document_paragraphs w h p); eexists; reflexivity.
    + left. reflexivity.
Qed.

Lemma upload_text_cases osp w file h :
  exists fs,
    snd (upload_text osp w file h) = fs ++ h
    /\ file_steps (path_join osp (py "temp") (filename file)) fs
    /\ (forall text, fst (upload_text osp w file h) = Ok text ->
          text = [] \/ read_and_removed (path_join osp (py "temp") (filename file)) fs).
Proof.
  unfold upload_text, bind, call, ret.
  set (p := path_join osp (py "temp") (filename file)).
  destruct (file_save w h p) as [[]|e].
  - destruct (extract_cases osp w p (SaveFile p :: h)) as [E | [(r & E) | (r & E)]];
      rewrite E.
    + destruct (os_remove w (SaveFile p :: h) p) as [[]|e'].
      * exists [RemoveFile p; SaveFile p]. cbn [fst snd]. unfold file_steps.
        split; [reflexivity | split; [tauto|]]. intros text H. left. congruence.
      * exists [RemoveFile p; SaveFile p]. cbn [fst snd]. unfold file_steps.
        split; [reflexivity | split; [tauto|]]. intros text H. discriminate H.
    + destruct r as [text|e'].
      * destruct (os_remove w (ExtractPdf p :: SaveFile p :: h) p) as [[]|e''];
          exists [RemoveFile p; ExtractPdf p; SaveFile p]; cbn [fst snd];
          unfold file_steps, read_and_removed;
          (split; [reflexivity | split; [tauto|]]); intros t H; [tauto | discriminate H].
      * exists [ExtractPdf p; SaveFile p]. cbn [fst snd]. unfold file_steps.
        split; [reflexivity | split; [tauto|]]. intros t H. discriminate H.
    + destruct r as [text|e'].
      * destruct (os_remove w (OpenDocx p :: SaveFile p :: h) p) as [[]|e''];
          exists [RemoveFile p; OpenDocx p; SaveFile p]; cbn [fst snd];
          unfold file_steps, read_and_removed;
          (split; [reflexivity | split; [tauto|]]); intros t H; [tauto | discriminate H].
      * exists [OpenDocx p; SaveFile p]. cbn [fst snd]. unfold file_steps.
        split; [reflexivity | split; [tauto|]]. intros t H. discriminate H.
  - exists [SaveFile p]. cbn [fst snd]. unfold file_steps.
    split; [reflexivity | split; [tauto|]]. intros t H. discriminate H.
Qed.

(** What one request to /upload does, in order: nothing without a file;
    else the temporary file is saved, read by at most one reader and removed
    at most once, and then at most three completion calls follow, all with
    the prompt of one and the same text; a completion call is made only
    after the file was read and removed (lines 70 to 97). *)
Theorem upload_trace (env : environ) (osp : os_path) (w : world)
    (files : gmap pystr FileStorage) (h : history) :
  match files !! py "resume" with
  | None => snd (upload_resume env osp w files h) = h
  | Some file =>
      exists n text fs,
        snd (upload_resume env osp w files h)
        = repeat (CreateResponse (GROQ_MODEL env) (upload_prompt text) 2048) n ++ fs ++ h
        /\ (n <= 3)%nat
        /\ file_steps (path_join osp (py "temp") (filename file)) fs
        /\ (n <> O -> read_and_removed (path_join osp (py "temp") (filename file)) fs)
  end.
Proof.
  unfold upload_resume. destruct (files !! py "resume") as [file|]; [|reflexivity].
  destruct (upload_text_cases osp w file h) as (fs & Hh & Hfs & Hok).
  unfold upload_body, bind.
  destruct (upload_text osp w file h) as [[text|e] h1]; cbn [fst snd] in *.
  - destruct (strip text) as [|c t] eqn:Es; cbn [truthy negb].
    + exists O, text, fs. cbn [snd ret repeat app].
      split; [exact Hh | split; [lia | split; [exact Hfs | congruence]]].
    + destruct (_call_groq env w (upload_prompt text) default_max_retries h1)
        as [[reply|e] h2] eqn:E;
        destruct (call_groq_shape _ _ _ _ _ _ _ E) as (n & Hn & Hh2 & _);
        exists n, text, fs; cbn [snd ret]; rewrite Hh2, Hh;
        (split; [reflexivity | split; [exact Hn | split; [exact Hfs|]]]);
        intros _; (destruct (Hok text eq_refl) as [Ht|Ht];
                   [subst text; discriminate Es | exact Ht]).
  - exists O, [], fs. cbn [snd repeat app].
    split; [exact Hh | split; [lia | split; [exact Hfs | congruence]]].
Qed.

(** ** The format of the prompt and the parser *)

Lemma digit_not_E c : is_digit c = true -> lit_match I_S (ch "E") c = false.
Proof.
  intros H. destruct (lit_match I_S (ch "E") c) eqn:E; [|reflexivity].
  unfold lit_match, ci_eq, ch in E. cbn in E. rewrite !orb_false_r in E.
  apply orb_true_iff in E as [E|E]; apply N.eqb_eq in E; subst c;
    vm_compute in H; discriminate H.
Qed.

Lemma digit_not_S c : is_digit c = true -> lit_match I_S (ch "S") c = false.
Proof.
  intros H. destruct (lit_match I_S (ch "S") c) eqn:E; [|reflexivity].
  unfold lit_match, ci_eq, ch in E. cbn in E. rewrite !orb_false_r in E.
  apply orb_true_iff in E as [E|E]; [apply orb_true_iff in E as [E|E]|];
    apply N.eqb_eq in E; subst c; vm_compute in H; discriminate H.
Qed.

(** Characters that cannot start the literal are passed over. *)
Lemma after_first_skip fl p0 p a y :
  forallb (fun c => negb (lit_match fl p0 c)) a = true ->
  after_first fl (p0 :: p) (a ++ y) = after_first fl (p0 :: p) y.
Proof.
  induction a as [|c a IH]; cbn [forallb app]; [reflexivity|].
  intros H. apply andb_true_iff in H as [Hc Ha]. apply negb_true_iff in Hc.
  cbn [after_first strip_prefix]. rewrite Hc. exact (IH Ha).
Qed.

(** A literal that does not start at the front of [t] does not start there
    when [t] is followed by a character the literal does not hold. *)
Lemma strip_prefix_blocked fl p t c y :
  strip_prefix fl p t = None ->
  forallb (fun pc => negb (lit_match fl pc c)) p = true ->
  strip_prefix fl p (t ++ c :: y) = None.
Proof.
  revert t. induction p as [|pc p IH]; intros t Ht Hc; cbn [strip_prefix] in *.
  - discriminate Ht.
  - cbn [forallb] in Hc. apply andb_true_iff in Hc as [Hpc Hp].
    apply negb_true_iff in Hpc.
    destruct t as [|x t]; cbn [app].
    + rewrite Hpc. reflexivity.
    + destruct (lit_match fl pc x); [exact (IH t Ht Hp) | reflexivity].
Qed.

Lemma marker_blocked_by_newline :
  forallb (fun pc => negb (lit_match I_S pc 10)) example_marker = true.
Proof. reflexivity. Qed.

Lemma after_first_tail fl p c t : after_first fl p (c :: t) = None -> after_first fl p t = None.
Proof.
  cbn [after_first]. destruct (strip_prefix fl p (c :: t)); [discriminate | auto].
Qed.

(** Text without the marker, a newline, then the marker: the leftmost
    marker is the one after the newline. *)
Lemma after_first_past_text text rest x :
  after_first I_S example_marker text = None ->
  strip_prefix I_S example_marker x = Some rest ->
  after_first I_S example_marker (text ++ nl ++ x) = Some rest.
Proof.
  intros Ht Hx. induction text as [|c text IH].
  - change ([] ++ nl ++ x) with (10 :: x). cbn [after_first].
    change (strip_prefix I_S example_marker (10 :: x)) with (@None pystr).
    destruct x as [|y x]; cbn [after_first]; rewrite Hx; reflexivity.
  - change ((c :: text) ++ nl ++ x) with ((c :: text) ++ 10 :: x).
    cbn [after_first app].
    change (c :: text ++ 10 :: x) with ((c :: text) ++ 10 :: x).
    rewrite (strip_prefix_blocked _ _ _ _ _ (after_first_none_here _ _ _ Ht)
               marker_blocked_by_newline).
    exact (IH (after_first_tail _ _ _ _ Ht)).
Qed.

Lemma lazy_group_past_text text rest x :
  after_first I_S example_marker text = None ->
  strip_prefix I_S example_marker x = Some rest ->
  lazy_group (text ++ nl ++ x) = text ++ nl.
Proof.
  intros Ht Hx.
  assert (Hx' : exists y x', x = y :: x').
  { destruct x as [|y x']; [discriminate Hx | eauto]. }
  destruct Hx' as (y & x' & ->).
  induction text as [|c text IH].
  - change ([] ++ nl ++ y :: x') with (10 :: y :: x'). cbn [lazy_group at_end].
    change (strip_prefix I_S example_marker (10 :: y :: x')) with (@None pystr).
    cbn iota. rewrite Hx. reflexivity.
  - change ((c :: text) ++ nl ++ y :: x') with (c :: (text ++ nl ++ y :: x')).
    cbn [lazy_group].
    change (c :: text ++ nl ++ y :: x') with ((c :: text) ++ 10 :: y :: x').
    rewrite (strip_prefix_blocked _ _ _ _ _ (after_first_none_here _ _ _ Ht)
               marker_blocked_by_newline).
    replace (at_end ((c :: text) ++ 10 :: y :: x')) with false
      by (destruct text; reflexivity).
    cbn [app]. f_equal. exact (IH (after_first_tail _ _ _ _ Ht)).
Qed.

Lemma trimmed_head s : strip s = s -> s <> [] -> exists c t, s = c :: t /\ is_space c = false.
Proof.
  intros Hs Hne. destruct s as [|c t]; [congruence|]. exists c, t. split; [reflexivity|].
  assert (Hl : lstrip (c :: t) = c :: t) by (rewrite <- Hs; apply lstrip_strip).
  cbn [lstrip] in Hl. destruct (is_space c) eqn:E; [|reflexivity].
  exfalso. destruct (lstrip_suffix t) as (l & Hl').
  apply (f_equal (@length char)) in Hl. rewrite Hl' in Hl at 2.
  cbn [length] in Hl. rewrite length_app in Hl. lia.
Qed.

Lemma lstrip_trimmed_app s y : strip s = s -> s <> [] -> lstrip (s ++ y) = s ++ y.
Proof.
  intros Hs Hne. destruct (trimmed_head s Hs Hne) as (c & t & -> & Hc).
  cbn [app lstrip]. rewrite Hc. reflexivity.
Qed.

Lemma strip_newline_trimmed s : strip s = s -> strip (nl ++ s) = s.
Proof. intros Hs. unfold strip. change (lstrip (nl ++ s)) with (lstrip s). exact Hs. Qed.

Section FormattedReply.
Variables number text section : pystr.
Hypothesis number_digits :
  ((length number = 1)%nat \/ (length number = 2)%nat) /\ forallb is_digit number = true.
Hypothesis text_trimmed : strip text = text.
Hypothesis text_not_empty : text <> [].
Hypothesis text_without_marker : after_first I_S example_marker text = None.
Hypothesis section_trimmed : strip section = section.
Hypothesis section_not_empty : section <> [].

Let after_heading : pystr :=
  py " (10/10):" ++ nl ++ section.

Lemma number_cases :
  (exists d, number = [d] /\ is_digit d = true)
  \/ (exists d1 d2, number = [d1; d2] /\ is_digit d1 = true /\ is_digit d2 = true).
Proof.
  destruct number_digits as [Hl Hd].
  destruct number as [|d1 [|d2 [|d3 n]]]; cbn [length forallb] in *.
  - destruct Hl; discriminate.
  - left. exists d1. rewrite andb_true_r in Hd. auto.
  - right. exists d1, d2. apply andb_true_iff in Hd as [H1 Hd].
    rewrite andb_true_r in Hd. auto.
  - destruct Hl; discriminate.
Qed.

Lemma formatted_rating :
  rating (parse_reply (formatted_reply number text section)) = Some number.
Proof.
  unfold parse_reply. cbn [rating].
  assert (H : match_at I_ rating_re (formatted_reply number text section)
              = Some {| group_1 := Some number |}).
  { rewrite match_at_rating. unfold rating_here, formatted_reply.
    set (tail := py "Suggestions:" ++ nl ++ text ++ nl
                 ++ py "Example of rewritten section (10/10):" ++ nl ++ section).
    destruct number_cases as [(d & -> & Hd) | (d1 & d2 & -> & Hd1 & Hd2)].
    - change (strip_prefix I_ (py "Rating") (py "Rating: " ++ [d] ++ nl ++ tail))
        with (Some (ch ":" :: ch " " :: d :: 10 :: tail)).
      unfold skip_separator.
      change (lstrip (ch ":" :: ch " " :: d :: 10 :: tail))
        with (ch ":" :: ch " " :: d :: 10 :: tail).
      cbn iota. change ((ch ":" =? ch ":") || (ch ":" =? ch "-")) with true. cbn iota.
      change (lstrip (ch " " :: d :: 10 :: tail)) with (lstrip (d :: 10 :: tail)).
      rewrite lstrip_nonspace by (apply digit_not_space; exact Hd).
      unfold take_digits. rewrite Hd. reflexivity.
    - change (strip_prefix I_ (py "Rating") (py "Rating: " ++ [d1; d2] ++ nl ++ tail))
        with (Some (ch ":" :: ch " " :: d1 :: d2 :: 10 :: tail)).
      unfold skip_separator.
      change (lstrip (ch ":" :: ch " " :: d1 :: d2 :: 10 :: tail))
        with (ch ":" :: ch " " :: d1 :: d2 :: 10 :: tail).
      cbn iota. change ((ch ":" =? ch ":") || (ch ":" =? ch "-")) with true. cbn iota.
      change (lstrip (ch " " :: d1 :: d2 :: 10 :: tail)) with (lstrip (d1 :: d2 :: 10 :: tail)).
      rewrite lstrip_nonspace by (apply digit_not_space; exact Hd1).
      unfold take_digits. rewrite Hd1, Hd2. reflexivity. }
  rewrite (search_here _ _ _ _ H). reflexivity.
Qed.

Lemma formatted_suggestions :
  suggestions (parse_reply (formatted_reply number text section)) = Some text.
Proof.
  unfold parse_reply. cbn [suggestions]. unfold suggestions_re.
  assert (Ha : after_first I_S (py "Suggestions") (formatted_reply number text section)
               = Some (ch ":" :: nl ++ text ++ nl ++ example_marker ++ after_heading)).
  { unfold formatted_reply.
    change (py "Suggestions") with (ch "S" :: py "uggestions").
    rewrite (app_assoc (py "Rating: ")), (app_assoc (py "Rating: " ++ number)).
    rewrite after_first_skip.
    - reflexivity.
    - rewrite !forallb_app. destruct number_digits as [_ Hd].
      replace (forallb (fun c => negb (lit_match I_S (ch "S") c)) number) with true.
      + reflexivity.
      + symmetry. apply forallb_forall. intros d Hin. apply negb_true_iff, digit_not_S.
        exact (proj1 (forallb_forall _ _) Hd d Hin). }
  rewrite (search_after_first _ _ _ _ _ _ Ha (suggestions_tail _)).
  cbn [group_1 option_map]. f_equal.
  unfold skip_separator.
  change (lstrip (ch ":" :: nl ++ text ++ nl ++ example_marker ++ after_heading))
    with (ch ":" :: nl ++ text ++ nl ++ example_marker ++ after_heading).
  cbn iota. change ((ch ":" =? ch ":") || (ch ":" =? ch "-")) with true. cbn iota.
  change (lstrip (nl ++ text ++ nl ++ example_marker ++ after_heading))
    with (lstrip (text ++ nl ++ example_marker ++ after_heading)).
  rewrite (lstrip_trimmed_app _ _ text_trimmed text_not_empty).
  rewrite (lazy_group_past_text text after_heading); [| exact text_without_marker | reflexivity].
  change (text ++ nl) with (text ++ [10]).
  rewrite strip_app_space by reflexivity. exact text_trimmed.
Qed.

Lemma formatted_example :
  example (parse_reply (formatted_reply number text section)) = Some section.
Proof.
  unfold parse_reply. cbn [example]. rewrite search_example.
  assert (Ha : after_first I_S example_marker (formatted_reply number text section)
               = Some after_heading).
  { unfold formatted_reply.
    change example_marker with (ch "E" :: py "xample of rewritten section") at 1.
    change (py "Suggestions:") with (py "Sugg" ++ py "estions:").
    rewrite <- (app_assoc (py "Sugg")).
    rewrite (app_assoc (py "Rating: ")), (app_assoc (py "Rating: " ++ number)),
      (app_assoc ((py "Rating: " ++ number) ++ nl)).
    rewrite after_first_skip.
    - set (tail := text ++ nl ++ py "Example of rewritten section (10/10):" ++ nl ++ section).
      change (after_first I_S (ch "E" :: py "xample of rewritten section")
                (py "estions:" ++ nl ++ tail))
        with (after_first I_S example_marker tail).
      apply after_first_past_text; [exact text_without_marker | reflexivity].
    - rewrite !forallb_app. destruct number_digits as [_ Hd].
      replace (forallb (fun c => negb (lit_match I_S (ch "E") c)) number) with true.
      + reflexivity.
      + symmetry. apply forallb_forall. intros d Hin. apply negb_true_iff, digit_not_E.
        exact (proj1 (forallb_forall _ _) Hd d Hin). }
  rewrite Ha. unfold after_heading.
  change (after_colon (py " (10/10):" ++ nl ++ section)) with (Some (nl ++ section)).
  cbn [option_map group_1]. rewrite strip_lstrip.
  rewrite (strip_newline_trimmed _ section_trimmed). reflexivity.
Qed.

End FormattedReply.

(** The format the prompt asks for is the format the parser reads: a reply
    made of a rating of one or two digits, a trimmed suggestions text that
    does not hold the example marker, and a trimmed rewritten section, none
    of them empty, under the three headings of line 93, is parsed into
    exactly those three parts and answered with a success that carries
    them (lines 93 and 98 to 106). *)
Theorem formatted_reply_round_trip (number text section : pystr) :
  ((length number = 1)%nat \/ (length number = 2)%nat) /\ forallb is_digit number = true ->
  strip text = text -> text <> [] ->
  after_first I_S example_marker text = None ->
  strip section = section -> section <> [] ->
  parse_reply (formatted_reply number text section)
  = {| rating := Some number; suggestions := Some text; example := Some section |}
  /\ analysis_response (formatted_reply number text section)
     = {| body := [("ai_rating"%string, JStr number);
                   ("ai_suggestions"%string, JStr text);
                   ("ai_example"%string, JStr section);
                   ("raw_ai_output"%string, JStr (formatted_reply number text section))];
          status := 200 |}.
Proof.
  intros Hn Ht Hte Htm Hs Hse.
  pose proof (formatted_rating number text section Hn) as Hr.
  pose proof (formatted_suggestions number text section Hn Ht Hte Htm) as Hsu.
  pose proof (formatted_example number text section Hn Htm Hs) as Hex.
  split.
  - destruct (parse_reply (formatted_reply number text section)) as [r su ex].
    cbn [rating suggestions example] in *. subst. reflexivity.
  - apply analysis_response_success; try assumption.
    destruct Hn as [[Hl|Hl] _]; intros ->; discriminate Hl.
Qed.

Lemma formatted_reply_round_trip_witness :
  parse_reply (formatted_reply (py "10") (py "- lead with results" ++ nl ++ py "- cut the objective")
                 (py "Led a team of 5: shipped on time."))
  = {| rating := Some (py "10");
       suggestions := Some (py "- lead with results" ++ nl ++ py "- cut the objective");
       example := Some (py "Led a team of 5: shipped on time.") |}.
Proof.
  apply (formatted_reply_round_trip (py "10")
           (py "- lead with results" ++ nl ++ py "- cut the objective")
           (py "Led a team of 5: shipped on time."));
    try (vm_compute; reflexivity); try (vm_compute; discriminate).
  split; [right; reflexivity | reflexivity].
Defined.
